(** * DrainSentinel ESP32-S3 firmware: rolling window, feature preparation,
      inference orchestration, fusion and alerting

    Shallow embedding of [firmware_esp32s3.cpp].  The global variables of the
    sketch become the fields of one [firmware] record that every function
    takes and returns; the sensor drivers, the clock, the WiFi link and the
    Edge Impulse classifier are inputs.

    [Serial] diagnostics are left out; the two HTTP handlers are the
    read-only functions [handle_status] and [handle_alerts].

    Numbers.  C [float] and [double] values are modelled by [cfloat]: a
    rational or NaN.  NaN propagates through arithmetic and makes every
    ordered comparison false, as in IEEE 754.  The fusion, whose result is
    compared with the alert thresholds, is computed as the C code computes
    it: every literal, product, quotient and sum rounded to the nearest
    double (ties to even, gradual underflow) and the result rounded to the
    32-bit [float] it is stored in ([IEEE]).  The sensor scalings and the
    feature rescalings are kept exact; infinities and overflow are not
    modelled.  C [int] and [long] are [Z]; [size_t] offsets and lengths are
    [nat] (they are bounded by the signal lengths). *)

From Stdlib Require Import ZArith QArith Qround Qpower Qabs Lqa String.
From stdpp Require Import base list.

(** ** Floating-point values *)

Module CFloat.

Inductive cfloat : Type :=
  | Fnum (q : Q)
  | Fnan.

Definition isnan (x : cfloat) : bool :=
  match x with Fnan => true | Fnum _ => false end.

Definition lift2 (op : Q -> Q -> Q) (a b : cfloat) : cfloat :=
  match a, b with
  | Fnum x, Fnum y => Fnum (op x y)
  | _, _ => Fnan
  end.

Definition fadd : cfloat -> cfloat -> cfloat := lift2 Qplus.
Definition fsub : cfloat -> cfloat -> cfloat := lift2 Qminus.
Definition fmul : cfloat -> cfloat -> cfloat := lift2 Qmult.

(** Every divisor in the firmware is a non-zero literal; a zero divisor
    (an infinity or NaN in C) is mapped to NaN here. *)
Definition fdiv (a b : cfloat) : cfloat :=
  match a, b with
  | Fnum x, Fnum y => if Qeq_bool y 0 then Fnan else Fnum (x / y)
  | _, _ => Fnan
  end.

(** C's [<], [>], [<=], [>=] on floating-point operands. *)
Definition flt (a b : cfloat) : bool :=
  match a, b with
  | Fnum x, Fnum y => negb (Qle_bool y x)
  | _, _ => false
  end.

Definition fle (a b : cfloat) : bool :=
  match a, b with
  | Fnum x, Fnum y => Qle_bool x y
  | _, _ => false
  end.

Definition fgt (a b : cfloat) : bool := flt b a.
Definition fge (a b : cfloat) : bool := fle b a.

(** Conversion of an integer operand to floating point. *)
Definition of_int (z : Z) : cfloat := Fnum (inject_Z z).

(** Same numeric value (the rationals are not kept in lowest terms). *)
Definition feq (a b : cfloat) : Prop :=
  match a, b with
  | Fnum x, Fnum y => (x == y)%Q
  | Fnan, Fnan => True
  | _, _ => False
  end.

Definition in_range (lo hi x : cfloat) : bool := fle lo x && fle x hi.

End CFloat.
Export CFloat.

Global Instance cfloat_inhabited : Inhabited cfloat := populate (Fnum 0).

(** ** IEEE 754 rounding *)

Module IEEE.

Definition pow2 (e : Z) : Q := (2 ^ e)%Q.

(** The integer nearest to [x], the even one when [x] is half-way. *)
Definition rne (x : Q) : Z :=
  let f := Qfloor x in
  match (x - inject_Z f ?= 1 # 2)%Q with
  | Lt => f
  | Gt => (f + 1)%Z
  | Eq => if Z.even f then f else (f + 1)%Z
  end.

(** The binade of a positive [x]: [2 ^ (mag x - 1) <= x < 2 ^ mag x]. *)
Definition mag (x : Q) : Z :=
  let e0 := (Z.log2 (Qnum x) - Z.log2 (Zpos (Qden x)))%Z in
  if Qle_bool (pow2 e0) x then (e0 + 1)%Z else e0.

(** A positive [x] rounded to [prec] significant bits, on the grid of the
    smallest subnormal [2 ^ emin] when [x] is that small. *)
Definition round_pos (prec emin : Z) (x : Q) : Q :=
  let u := pow2 (Z.max (mag x - prec) emin) in
  inject_Z (rne (x / u)) * u.

(** Round to nearest, ties to even. *)
Definition round (prec emin : Z) (x : Q) : Q :=
  match (x ?= 0)%Q with
  | Eq => 0
  | Gt => round_pos prec emin x
  | Lt => - round_pos prec emin (- x)
  end.

(** binary64 ([double]) and binary32 ([float]). *)
Definition round_double : Q -> Q := round 53 (-1074).
Definition round_float : Q -> Q := round 24 (-149).

(** A value converted to [double], and stored into a [float]. *)
Definition to_double (x : cfloat) : cfloat :=
  match x with Fnum q => Fnum (round_double q) | Fnan => Fnan end.

Definition to_float (x : cfloat) : cfloat :=
  match x with Fnum q => Fnum (round_float q) | Fnan => Fnan end.

(** A decimal literal of type [double]. *)
Definition dlit (q : Q) : cfloat := Fnum (round_double q).

(** [double] arithmetic: the exact result, rounded. *)
Definition dadd (a b : cfloat) : cfloat := to_double (fadd a b).
Definition dmul (a b : cfloat) : cfloat := to_double (fmul a b).
Definition ddiv (a b : cfloat) : cfloat := to_double (fdiv a b).

End IEEE.
Export IEEE.

(** ** Arduino core helpers *)

(** Modelled from the spec: [constrain] is the clamp macro of the Arduino
    core, which is not part of this source file; the core defines it as
    [((amt)<(low)?(low):((amt)>(high)?(high):(amt)))]. *)
Definition constrain (amt low high : cfloat) : cfloat :=
  if flt amt low then low else if fgt amt high then high else amt.

(** Modelled from the spec: [map] is the integer range mapping of the
    Arduino core, which is not part of this source file:
    [(x - in_min) * (out_max - out_min) / (in_max - in_min) + out_min],
    and [-1] when the input range is empty. *)
Definition map_range (x in_min in_max out_min out_max : Z) : Z :=
  let run := (in_max - in_min)%Z in
  if (run =? 0)%Z then (-1)%Z
  else
    let rise := (out_max - out_min)%Z in
    let delta := (x - in_min)%Z in
    ((delta * rise) ÷ run + out_min)%Z.

(** ** Configuration *)

Definition CAMERA_INTERVAL : Z := 5000.
Definition SENSOR_INTERVAL : Z := 1000.
Definition ENV_INTERVAL : Z := 60000.
Definition ALERT_THRESHOLD_HIGH : cfloat := Fnum 0.7.
Definition ALERT_THRESHOLD_MEDIUM : cfloat := Fnum 0.5.

(** Capacity of [water_level_buffer]. *)
Definition WINDOW : nat := 60.

(** ** Global state *)

Record env_data : Type := mk_env {
  temperature : cfloat;
  humidity : cfloat;
  pressure : cfloat;
  rainfall : cfloat;
  water_level : cfloat
}.

Record results : Type := mk_results {
  blockage_score : cfloat;
  water_level_class : Z;
  flood_risk : cfloat;
  alert_score : cfloat;
  alert_level : string;
  alert_message : string
}.

Record firmware : Type := mk_firmware {
  last_camera_time : Z;
  last_sensor_time : Z;
  last_env_time : Z;
  water_level_buffer : list cfloat;
  buffer_index : Z;
  current_env_data : env_data;
  inference_results : results
}.

(** The initializers of the globals. *)
Definition initial_env : env_data :=
  mk_env (Fnum 0) (Fnum 0) (Fnum 0) (Fnum 0) (Fnum 0).

Definition initial_results : results :=
  mk_results (Fnum 0) 0 (Fnum 0) (Fnum 0) "LOW" "".

Definition initial_firmware : firmware :=
  mk_firmware 0 0 0 (replicate WINDOW (Fnum 0)) 0 initial_env initial_results.

Definition with_env (e : env_data) (fw : firmware) : firmware :=
  mk_firmware (last_camera_time fw) (last_sensor_time fw) (last_env_time fw)
    (water_level_buffer fw) (buffer_index fw) e (inference_results fw).

Definition with_results (r : results) (fw : firmware) : firmware :=
  mk_firmware (last_camera_time fw) (last_sensor_time fw) (last_env_time fw)
    (water_level_buffer fw) (buffer_index fw) (current_env_data fw) r.

(** ** Sensor functions *)

(** [read_dht22]: [temp] and [hum] are what [dht.readTemperature()] and
    [dht.readHumidity()] returned. *)
Definition read_dht22 (temp hum : cfloat) (fw : firmware) : firmware :=
  if isnan temp || isnan hum then fw
  else
    let e := current_env_data fw in
    with_env (mk_env (constrain temp (of_int 15) (of_int 40))
                     (constrain hum (of_int 0) (of_int 100))
                     (pressure e) (rainfall e) (water_level e)) fw.

(** [read_bmp280]: [raw] is what [bmp280.readPressure()] returned (Pa). *)
Definition read_bmp280 (raw : cfloat) (fw : firmware) : firmware :=
  let p := fdiv raw (Fnum 100.0) in
  let e := current_env_data fw in
  with_env (mk_env (temperature e) (humidity e)
                   (constrain p (of_int 990) (of_int 1040))
                   (rainfall e) (water_level e)) fw.

(** [read_ultrasonic]: [duration] is what [pulseIn] returned (0 on timeout). *)
Definition read_ultrasonic (duration : Z) : cfloat :=
  let distance := fdiv (fmul (of_int duration) (Fnum 0.0343)) (of_int 2) in
  constrain distance (of_int 0) (of_int 100).

(** [read_rain_sensor]: [rain_value] is what [analogRead] returned. *)
Definition read_rain_sensor (rain_value : Z) (fw : firmware) : firmware :=
  let e := current_env_data fw in
  with_env (mk_env (temperature e) (humidity e) (pressure e)
                   (of_int (map_range rain_value 0 4095 0 100))
                   (water_level e)) fw.

(** [update_water_level_buffer]: the clamped value goes to
    [current_env_data.water_level], the argument itself to the slot at the
    write cursor, and the cursor advances modulo 60. *)
Definition update_water_level_buffer (wl : cfloat) (fw : firmware) : firmware :=
  let e := current_env_data fw in
  mk_firmware (last_camera_time fw) (last_sensor_time fw) (last_env_time fw)
    (<[Z.to_nat (buffer_index fw) := wl]> (water_level_buffer fw))
    (Z.rem (buffer_index fw + 1) 60)
    (mk_env (temperature e) (humidity e) (pressure e) (rainfall e)
            (constrain wl (of_int 0) (of_int 100)))
    (inference_results fw).

(** ** Edge Impulse interface *)

(** [signal_t]: [get_data offset length] gives the floats the callback writes
    to [out_ptr] and the callback's return code. *)
Record signal_t : Type := mk_signal {
  total_length : nat;
  get_data : nat -> nat -> list cfloat * Z
}.

Record ei_classification : Type := mk_class {
  label : string;
  value : cfloat
}.

(** [ei_impulse_result_t]: the [classification] array, which has
    [EI_CLASSIFIER_LABEL_COUNT] entries. *)
Definition ei_impulse_result_t : Type := list ei_classification.

Definition EI_IMPULSE_ERROR : Type := Z.
Definition EI_IMPULSE_OK : EI_IMPULSE_ERROR := 0%Z.

(** The classifier of the Edge Impulse SDK: an input of the firmware. *)
Definition classifier : Type :=
  signal_t -> EI_IMPULSE_ERROR * ei_impulse_result_t.

(** The [get_data] callback of [run_visual_inference]: a [memset] to zero of
    [length] floats. *)
Definition visual_get_data (offset length : nat) : list cfloat * Z :=
  (replicate length (Fnum 0), 0%Z).

(** The [get_data] callback of [run_sensor_inference]:
    [out_ptr[i] = water_level_buffer[(buffer_index + i) % 60] / 100.0]. *)
Definition sensor_get_data (fw : firmware) (offset length : nat)
  : list cfloat * Z :=
  (map (fun i : nat =>
          fdiv (water_level_buffer fw !!! ((Z.to_nat (buffer_index fw) + i) mod 60))
               (Fnum 100.0))
       (seq 0 length),
   0%Z).

(** The [get_data] callback of [run_environmental_inference]: five features,
    whatever [offset] and [length] are. *)
Definition env_features (e : env_data) : list cfloat :=
  [ fdiv (fsub (temperature e) (of_int 15)) (of_int 25);
    fdiv (humidity e) (of_int 100);
    fsub (of_int 1) (fdiv (fsub (pressure e) (of_int 990)) (of_int 50));
    fdiv (rainfall e) (of_int 100);
    fdiv (water_level e) (of_int 100) ].

Definition env_get_data (fw : firmware) (offset length : nat)
  : list cfloat * Z :=
  (env_features (current_env_data fw), 0%Z).

(** The loop shared by the visual and the environmental model: the value of
    the first entry whose label is [lbl], 0.0 when there is none. *)
Fixpoint score_of_label (lbl : string) (cls : ei_impulse_result_t) : cfloat :=
  match cls with
  | [] => Fnum 0.0
  | c :: rest =>
      if String.eqb (label c) lbl then value c else score_of_label lbl rest
  end.

(** One iteration of the arg-max loop of [run_sensor_inference]; the state is
    [(water_level_class, max_score)]. *)
Definition sensor_step (acc : Z * cfloat) (c : ei_classification) : Z * cfloat :=
  let '(cls, max_score) := acc in
  if fgt (value c) max_score then
    (if String.eqb (label c) "normal" then 0%Z
     else if String.eqb (label c) "elevated" then 1%Z
     else if String.eqb (label c) "critical" then 2%Z
     else cls,
     value c)
  else acc.

Definition class_of_result (res : ei_impulse_result_t) : Z :=
  fst (fold_left sensor_step res (0%Z, Fnum 0.0)).

Section Inference.

(** [EI_CLASSIFIER_INPUT_SIZE] comes from the model metadata header. *)
Variable EI_CLASSIFIER_INPUT_SIZE : nat.
Variable run_classifier : classifier.

Definition visual_signal : signal_t :=
  mk_signal EI_CLASSIFIER_INPUT_SIZE visual_get_data.

Definition run_visual_inference (frame_data : list Z) : cfloat :=
  let '(err, result) := run_classifier visual_signal in
  if negb (err =? EI_IMPULSE_OK)%Z then Fnum 0.0
  else score_of_label "blockage" result.

Definition sensor_signal (fw : firmware) : signal_t :=
  mk_signal 60 (sensor_get_data fw).

Definition run_sensor_inference (fw : firmware) : Z :=
  let '(err, result) := run_classifier (sensor_signal fw) in
  if negb (err =? EI_IMPULSE_OK)%Z then 0%Z
  else class_of_result result.

Definition env_signal (fw : firmware) : signal_t :=
  mk_signal 5 (env_get_data fw).

Definition run_environmental_inference (fw : firmware) : cfloat :=
  let '(err, result) := run_classifier (env_signal fw) in
  if negb (err =? EI_IMPULSE_OK)%Z then Fnum 0.0
  else score_of_label "high_risk" result.

End Inference.

(** ** Fusion and decision logic *)

(** The weighted combination of [fuse_and_alert]. *)
Definition fuse_double (blockage : cfloat) (wl_class : Z) (flood : cfloat)
  : cfloat :=
  dadd (dadd (dmul (dlit 0.40) blockage)
             (dmul (dlit 0.30) (ddiv (of_int wl_class) (dlit 2.0))))
       (dmul (dlit 0.30) flood).

(** The value stored in the [float] field [alert_score]. *)
Definition fuse (blockage : cfloat) (wl_class : Z) (flood : cfloat) : cfloat :=
  to_float (fuse_double blockage wl_class flood).

(** The [if]/[else if] chain of [fuse_and_alert]: level and message. *)
Definition alert_decision (score : cfloat) (wl_class : Z) (flood : cfloat)
  : string * string :=
  if fgt score ALERT_THRESHOLD_HIGH && (wl_class =? 2)%Z then
    ("HIGH", "CRITICAL: Drainage blockage detected with high water level!")%string
  else if fgt score ALERT_THRESHOLD_MEDIUM || (wl_class =? 1)%Z then
    ("MEDIUM", "WARNING: Potential blockage or elevated water level detected.")%string
  else if fgt flood (Fnum 0.7) then
    ("MEDIUM", "WARNING: Flood risk predicted based on weather patterns.")%string
  else
    ("LOW", "OK: Drainage system operating normally.")%string.

Definition fuse_and_alert (fw : firmware) : firmware :=
  let r := inference_results fw in
  let score := fuse (blockage_score r) (water_level_class r) (flood_risk r) in
  let '(level, message) :=
    alert_decision score (water_level_class r) (flood_risk r) in
  with_results
    (mk_results (blockage_score r) (water_level_class r) (flood_risk r)
                score level message) fw.

(** ** Alert sink and queries *)

Record alert_payload : Type := mk_payload {
  p_timestamp : Z;
  p_alert_level : string;
  p_alert_message : string;
  p_blockage_score : cfloat;
  p_water_level_class : Z;
  p_flood_risk : cfloat;
  p_temperature : cfloat;
  p_humidity : cfloat;
  p_water_level : cfloat
}.

(** [send_alert]: nothing is produced when WiFi is not connected; otherwise
    the JSON document is built and written out.  [now] is [millis()]. *)
Definition send_alert (wifi_connected : bool) (now : Z) (fw : firmware)
  : option alert_payload :=
  if negb wifi_connected then None
  else
    let r := inference_results fw in
    let e := current_env_data fw in
    Some (mk_payload now (alert_level r) (alert_message r)
            (blockage_score r) (water_level_class r) (flood_risk r)
            (temperature e) (humidity e) (water_level e)).

Record status_doc : Type := mk_status {
  s_status : string;
  s_uptime_ms : Z;
  s_alert_level : string;
  s_blockage_score : cfloat;
  s_water_level : cfloat;
  s_temperature : cfloat;
  s_humidity : cfloat
}.

Definition handle_status (now : Z) (fw : firmware) : status_doc :=
  mk_status "running" now
    (alert_level (inference_results fw))
    (blockage_score (inference_results fw))
    (water_level (current_env_data fw))
    (temperature (current_env_data fw))
    (humidity (current_env_data fw)).

Record alerts_doc : Type := mk_alerts {
  a_alert_level : string;
  a_alert_message : string;
  a_alert_score : cfloat
}.

Definition handle_alerts (fw : firmware) : alerts_doc :=
  mk_alerts (alert_level (inference_results fw))
            (alert_message (inference_results fw))
            (alert_score (inference_results fw)).

(** ** Main loop *)

(** What one iteration of [loop] reads from the outside world. *)
Record loop_inputs : Type := mk_inputs {
  in_millis : Z;
  in_dht_temperature : cfloat;
  in_dht_humidity : cfloat;
  in_bmp_pressure : cfloat;
  in_rain_value : Z;
  in_echo_duration : Z;
  in_frame : list Z;
  in_wifi_connected : bool;
  in_send_millis : Z
}.

(** [current_time - last] on [unsigned long] (32 bits on the ESP32). *)
Definition elapsed (current_time last : Z) : Z :=
  ((current_time - last) mod 2 ^ 32)%Z.

Definition with_last_env_time (t : Z) (fw : firmware) : firmware :=
  mk_firmware (last_camera_time fw) (last_sensor_time fw) t
    (water_level_buffer fw) (buffer_index fw) (current_env_data fw)
    (inference_results fw).

Definition with_last_sensor_time (t : Z) (fw : firmware) : firmware :=
  mk_firmware (last_camera_time fw) t (last_env_time fw)
    (water_level_buffer fw) (buffer_index fw) (current_env_data fw)
    (inference_results fw).

Definition with_last_camera_time (t : Z) (fw : firmware) : firmware :=
  mk_firmware t (last_sensor_time fw) (last_env_time fw)
    (water_level_buffer fw) (buffer_index fw) (current_env_data fw)
    (inference_results fw).

Definition with_blockage_score (x : cfloat) (fw : firmware) : firmware :=
  let r := inference_results fw in
  with_results (mk_results x (water_level_class r) (flood_risk r)
                  (alert_score r) (alert_level r) (alert_message r)) fw.

Definition with_water_level_class (c : Z) (fw : firmware) : firmware :=
  let r := inference_results fw in
  with_results (mk_results (blockage_score r) c (flood_risk r)
                  (alert_score r) (alert_level r) (alert_message r)) fw.

Definition with_flood_risk (x : cfloat) (fw : firmware) : firmware :=
  let r := inference_results fw in
  with_results (mk_results (blockage_score r) (water_level_class r) x
                  (alert_score r) (alert_level r) (alert_message r)) fw.

Section Loop.

Variable EI_CLASSIFIER_INPUT_SIZE : nat.
Variable run_classifier : classifier.

(** The three model calls of the inference block, in program order. *)
Definition run_models (frame_buffer : list Z) (fw : firmware) : firmware :=
  let fw1 :=
    with_blockage_score
      (run_visual_inference EI_CLASSIFIER_INPUT_SIZE run_classifier frame_buffer)
      fw in
  let fw2 :=
    with_water_level_class (run_sensor_inference run_classifier fw1) fw1 in
  with_flood_risk (run_environmental_inference run_classifier fw2) fw2.

(** The inference block of [loop]: the models, the fusion, and the
    conditional [send_alert]. *)
Definition inference_cycle (inp : loop_inputs) (fw : firmware)
  : firmware * option alert_payload :=
  let fw1 := fuse_and_alert (run_models (in_frame inp) fw) in
  let sent :=
    if negb (String.eqb (alert_level (inference_results fw1)) "LOW") then
      send_alert (in_wifi_connected inp) (in_send_millis inp) fw1
    else None in
  (with_last_camera_time (in_millis inp) fw1, sent).

Definition loop (inp : loop_inputs) (fw : firmware)
  : firmware * option alert_payload :=
  let current_time := in_millis inp in
  let fw1 :=
    if (ENV_INTERVAL <=? elapsed current_time (last_env_time fw))%Z then
      with_last_env_time current_time
        (read_rain_sensor (in_rain_value inp)
           (read_bmp280 (in_bmp_pressure inp)
              (read_dht22 (in_dht_temperature inp) (in_dht_humidity inp) fw)))
    else fw in
  let fw2 :=
    if (SENSOR_INTERVAL <=? elapsed current_time (last_sensor_time fw1))%Z then
      with_last_sensor_time current_time
        (update_water_level_buffer (read_ultrasonic (in_echo_duration inp)) fw1)
    else fw1 in
  if (CAMERA_INTERVAL <=? elapsed current_time (last_camera_time fw2))%Z then
    inference_cycle inp fw2
  else (fw2, None).

End Loop.

(** ** Rolling window: recording and readout *)

(** A run of [update_water_level_buffer] calls, oldest value first. *)
Definition record_all (vs : list cfloat) (fw : firmware) : firmware :=
  fold_left (fun st v => update_water_level_buffer v st) vs fw.

(** The normalisation of the temporal features: division by 100.0. *)
Definition normalize (v : cfloat) : cfloat := fdiv v (Fnum 100.0).

(** The full readout the classifier obtains: [get_data(0, 60, out)]. *)
Definition read_normalized (fw : firmware) : list cfloat :=
  fst (sensor_get_data fw 0 60).

(** The buffer contents in logical order, starting at the write cursor. *)
Definition window (fw : firmware) : list cfloat :=
  rotate (Z.to_nat (buffer_index fw)) (water_level_buffer fw).

(** Cursor and capacity invariant of the rolling window. *)
Definition window_ok (fw : firmware) : Prop :=
  length (water_level_buffer fw) = WINDOW /\
  (0 <= buffer_index fw < 60)%Z.

(** ** Startup *)

(** The WiFi wait of [setup]:
    [while (WiFi.status() != WL_CONNECTED && attempts < 20) { delay(500); attempts++; }].
    [status k] tells whether the k-th call of [WiFi.status()] answers
    [WL_CONNECTED]; the result is the number of calls made and [attempts]. *)
Fixpoint wifi_wait (fuel : nat) (status : nat -> bool) (polls : nat)
    (attempts : Z) : nat * Z :=
  match fuel with
  | O => (polls, attempts)
  | S fuel' =>
      if negb (status polls) && (attempts <? 20)%Z then
        wifi_wait fuel' status (S polls) (attempts + 1)
      else (S polls, attempts)
  end.

(** [setup]: the wait, then the [if (WiFi.status() == WL_CONNECTED)] that
    chooses between connected and local mode.  The result is the mode
    ([true]: connected), the time spent in [delay(500)], and the state the
    first [loop] starts from. *)
Definition setup (status : nat -> bool) : bool * Z * firmware :=
  let '(polls, attempts) := wifi_wait 21 status 0 0 in
  (status polls, (500 * attempts)%Z, initial_firmware).

(** ** Runs of the main loop *)

(** The state [loop] has after its two sampling blocks, before the inference
    block. *)
Definition sampling_phase (inp : loop_inputs) (fw : firmware) : firmware :=
  let current_time := in_millis inp in
  let fw1 :=
    if (ENV_INTERVAL <=? elapsed current_time (last_env_time fw))%Z then
      with_last_env_time current_time
        (read_rain_sensor (in_rain_value inp)
           (read_bmp280 (in_bmp_pressure inp)
              (read_dht22 (in_dht_temperature inp) (in_dht_humidity inp) fw)))
    else fw in
  if (SENSOR_INTERVAL <=? elapsed current_time (last_sensor_time fw1))%Z then
    with_last_sensor_time current_time
      (update_water_level_buffer (read_ultrasonic (in_echo_duration inp)) fw1)
  else fw1.

Section Runs.

Variable EI_CLASSIFIER_INPUT_SIZE : nat.
Variable run_classifier : classifier.

(** Successive passes of [loop], one per element of [inps]. *)
Definition run_loop (inps : list loop_inputs) (fw : firmware) : firmware :=
  fold_left
    (fun st inp => fst (loop EI_CLASSIFIER_INPUT_SIZE run_classifier inp st))
    inps fw.

End Runs.

(** Every stored water level is a number in [0, 100]. *)
Definition levels_ok (fw : firmware) : Prop :=
  window_ok fw /\
  Forall (fun x => in_range (of_int 0) (of_int 100) x = true)
    (water_level_buffer fw) /\
  in_range (of_int 0) (of_int 100) (water_level (current_env_data fw)) = true.

(** ** Sample inputs *)

(** The water levels 0, 1, ..., 60: one more than the window holds. *)
Definition sixty_one_levels : list cfloat :=
  map (fun i : nat => of_int (Z.of_nat i)) (seq 0 61).

(** A state whose three model outputs are at their maximum. *)
Definition critical_firmware : firmware :=
  with_results (mk_results (Fnum 1) 2 (Fnum 1) (Fnum 0) "LOW" "")
    initial_firmware.

(** A classifier that answers the 60-sample and the 5-feature signal and
    fails ([EI_IMPULSE_TFLITE_ERROR]) on any other. *)
Definition sample_classifier : classifier :=
  fun s =>
    if (total_length s =? 60)%nat then
      (EI_IMPULSE_OK,
       [ mk_class "normal" (Fnum 0.1); mk_class "elevated" (Fnum 0.7);
         mk_class "critical" (Fnum 0.2) ])
    else if (total_length s =? 5)%nat then
      (EI_IMPULSE_OK,
       [ mk_class "low_risk" (Fnum 0.2); mk_class "high_risk" (Fnum 0.8) ])
    else ((-3)%Z, []).

Definition sample_inputs : loop_inputs :=
  mk_inputs 5000 (Fnum 25) (Fnum 50) (Fnum 101300) 0 0 [] false 5001.

(** A pass at 60 s with every activity due, valid readings and WiFi up. *)
Definition all_due_inputs : loop_inputs :=
  mk_inputs 60000 (Fnum 25) (Fnum 50) (Fnum 101300) 2048 2000 [] true 60010.

(** * Properties *)

(** Division by a literal is multiplication by its inverse, which [lra]
    then treats as a constant. *)
Ltac q_arith :=
  unfold Qdiv in *;
  repeat match goal with
    | |- context [Qinv ?c] =>
        let c' := eval vm_compute in (Qinv c) in change (Qinv c) with c'
    | H : context [Qinv ?c] |- _ =>
        let c' := eval vm_compute in (Qinv c) in change (Qinv c) with c' in H
    end;
  lra.

(** ** Rounding *)

Ltac qcompare_alt :=
  repeat match goal with
    | H : (_ ?= _)%Q = Eq |- _ => apply Qeq_alt in H
    | H : (_ ?= _)%Q = Lt |- _ => apply Qlt_alt in H
    | H : (_ ?= _)%Q = Gt |- _ => apply Qgt_alt in H
    end.

Lemma pow2_pos (e : Z) : (0 < pow2 e)%Q.
Proof. apply Qpower_0_lt. reflexivity. Qed.

Lemma pow2_add (a b : Z) : (pow2 (a + b) == pow2 a * pow2 b)%Q.
Proof. apply Qpower_plus. discriminate. Qed.

Lemma pow2_le (a b : Z) : (a <= b)%Z -> (pow2 a <= pow2 b)%Q.
Proof. intros H. apply Qpower_le_compat_l; [exact H | discriminate]. Qed.

Lemma pow2_lt_inv (a b : Z) : (pow2 a < pow2 b)%Q -> (a < b)%Z.
Proof. intros H. apply (Qpower_lt_compat_l_inv 2); [exact H | reflexivity]. Qed.

Lemma pow2_Z (n : Z) : (0 <= n)%Z -> (pow2 n == inject_Z (2 ^ n))%Q.
Proof. intros H. symmetry. apply (Zpower_Qpower 2 n H). Qed.

Lemma pow2_succ (a : Z) : (pow2 (a + 1) == 2 * pow2 a)%Q.
Proof. rewrite pow2_add. change (pow2 1) with 2%Q. ring. Qed.

Lemma rne_bounds (x : Q) :
  (inject_Z (rne x) - (1 # 2) <= x <= inject_Z (rne x) + (1 # 2))%Q.
Proof.
  unfold rne. pose proof (Qfloor_le x) as Hlo. pose proof (Qlt_floor x) as Hhi.
  rewrite inject_Z_plus in Hhi. change (inject_Z 1) with 1%Q in Hhi.
  destruct (x - inject_Z (Qfloor x) ?= 1 # 2)%Q eqn:Hc.
  - apply Qeq_alt in Hc.
    destruct (Z.even (Qfloor x)); [|rewrite inject_Z_plus; change (inject_Z 1) with 1%Q]; lra.
  - apply Qlt_alt in Hc. lra.
  - apply Qgt_alt in Hc. rewrite inject_Z_plus. change (inject_Z 1) with 1%Q. lra.
Qed.

Lemma rne_floor (x : Q) : (Qfloor x <= rne x <= Qfloor x + 1)%Z.
Proof.
  unfold rne. destruct (_ ?= _)%Q; [destruct (Z.even _)| |]; lia.
Qed.

Lemma rne_mono (x y : Q) : (x <= y)%Q -> (rne x <= rne y)%Z.
Proof.
  intros Hxy. pose proof (Qfloor_resp_le x y Hxy) as Hf.
  destruct (Z.eq_dec (Qfloor x) (Qfloor y)) as [Heq|Hne].
  - unfold rne. rewrite <- Heq.
    destruct (x - inject_Z (Qfloor x) ?= 1 # 2)%Q eqn:Hx;
    destruct (y - inject_Z (Qfloor x) ?= 1 # 2)%Q eqn:Hy;
    try (destruct (Z.even (Qfloor x))); try lia;
    qcompare_alt; exfalso; lra.
  - pose proof (rne_floor x). pose proof (rne_floor y). lia.
Qed.

Lemma rne_Z (z : Z) : rne (inject_Z z) = z.
Proof.
  unfold rne. rewrite Qfloor_Z.
  assert (H : (inject_Z z - inject_Z z ?= 1 # 2)%Q = Lt).
  { rewrite <- Qlt_alt. lra. }
  by rewrite H.
Qed.

Lemma mag_spec (x : Q) :
  (0 < x)%Q -> (pow2 (mag x - 1) <= x /\ x < pow2 (mag x))%Q.
Proof.
  destruct x as [n d]. intros Hpos.
  assert (Hn : (0 < n)%Z).
  { unfold Qlt in Hpos. simpl in Hpos. lia. }
  unfold mag. cbn [Qnum Qden].
  set (a := Z.log2 n). set (b := Z.log2 (Zpos d)).
  destruct (Z.log2_spec n Hn) as [Ha1 Ha2]. fold a in Ha1, Ha2.
  destruct (Z.log2_spec (Zpos d) ltac:(lia)) as [Hb1 Hb2]. fold b in Hb1, Hb2.
  assert (Ha0 : (0 <= a)%Z) by apply Z.log2_nonneg.
  assert (Hb0 : (0 <= b)%Z) by apply Z.log2_nonneg.
  rewrite Zle_Qle in Ha1, Hb1. rewrite Zlt_Qlt in Ha2, Hb2.
  replace (Z.succ a) with (a + 1)%Z in Ha2 by lia.
  replace (Z.succ b) with (b + 1)%Z in Hb2 by lia.
  rewrite <- !pow2_Z in Ha1, Ha2, Hb1, Hb2 by lia.
  rewrite pow2_succ in Ha2, Hb2.
  assert (Hx : (n # d == inject_Z n / inject_Z (Zpos d))%Q) by apply Qmake_Qdiv.
  set (N := inject_Z n) in *. set (D := inject_Z (Zpos d)) in *.
  assert (HA := pow2_pos a). assert (HB := pow2_pos b).
  assert (Hab : (pow2 (a - b) == pow2 a / pow2 b)%Q).
  { apply Qpower_minus. discriminate. }
  assert (HD : (0 < D)%Q) by lra.
  assert (Hxd : ((n # d) * D == N)%Q).
  { rewrite Hx. field. lra. }
  assert (Habd : (pow2 (a - b) * pow2 b == pow2 a)%Q).
  { rewrite Hab. field. lra. }
  set (X := (n # d)%Q) in *. set (P := pow2 (a - b)) in *.
  set (A := pow2 a) in *. set (B := pow2 b) in *.
  assert (HP : (0 < P)%Q) by apply pow2_pos.
  destruct (Qle_bool P X) eqn:Hc.
  - apply Qle_bool_iff in Hc.
    replace (a - b + 1 - 1)%Z with (a - b)%Z by lia. fold P.
    split; [exact Hc|]. rewrite pow2_succ. fold P.
    apply Qnot_le_lt. intros Hge. nra.
  - assert (Hlt : (X < P)%Q).
    { apply Qnot_le_lt. intros Hle. apply Qle_bool_iff in Hle. congruence. }
    split; [|exact Hlt].
    assert (Hs : (P == 2 * pow2 (a - b - 1))%Q).
    { unfold P. replace (a - b)%Z with ((a - b - 1) + 1)%Z at 1 by lia.
      apply pow2_succ. }
    set (P' := pow2 (a - b - 1)) in *.
    apply Qnot_lt_le. intros Hlt'.
    assert (HX : (0 < X)%Q) by exact Hpos.
    assert (H1 : (0 < X * (2 * B - D))%Q).
    { apply Qmult_lt_0_compat; lra. }
    assert (H2 : (0 < B * (P - 2 * X))%Q).
    { apply Qmult_lt_0_compat; lra. }
    nra.
Qed.

Lemma mag_mono (x y : Q) : (0 < x)%Q -> (x <= y)%Q -> (mag x <= mag y)%Z.
Proof.
  intros Hx Hxy.
  destruct (mag_spec x Hx) as [Hlo _].
  destruct (mag_spec y ltac:(lra)) as [_ Hhi].
  assert (H : (pow2 (mag x - 1) < pow2 (mag y))%Q) by lra.
  apply pow2_lt_inv in H. lia.
Qed.

Lemma mag_le (x : Q) (k : Z) : (0 < x)%Q -> (x < pow2 k)%Q -> (mag x <= k)%Z.
Proof.
  intros Hx Hk. destruct (mag_spec x Hx) as [Hlo _].
  assert (H : (pow2 (mag x - 1) < pow2 k)%Q) by lra.
  apply pow2_lt_inv in H. lia.
Qed.

Section Format.

Variables prec emin : Z.
Hypothesis prec_pos : (1 <= prec)%Z.

Let fexp (e : Z) : Z := Z.max (e - prec) emin.

Lemma round_pos_eq (x : Q) :
  round_pos prec emin x =
    (inject_Z (rne (x / pow2 (fexp (mag x)))) * pow2 (fexp (mag x)))%Q.
Proof. reflexivity. Qed.

Lemma ulp_scale (x u t : Q) : (0 < u)%Q -> (t == x / u)%Q -> (x == t * u)%Q.
Proof. intros Hu ->. field. lra. Qed.

Lemma round_pos_error (x : Q) :
  (Qabs (round_pos prec emin x - x) <= pow2 (fexp (mag x)) / 2)%Q.
Proof.
  rewrite round_pos_eq. set (u := pow2 (fexp (mag x))).
  assert (Hu : (0 < u)%Q) by apply pow2_pos.
  pose proof (rne_bounds (x / u)) as Hr.
  pose proof (ulp_scale x u (x / u) Hu ltac:(reflexivity)) as Hx.
  set (t := (x / u)%Q) in *. set (r := inject_Z (rne t)) in *.
  assert (H1 : (0 <= (t - (r - (1 # 2))) * u)%Q)
    by (apply Qmult_le_0_compat; lra).
  assert (H2 : (0 <= (r + (1 # 2) - t) * u)%Q)
    by (apply Qmult_le_0_compat; lra).
  apply Qabs_Qle_condition. unfold Qdiv. change (/ 2)%Q with (1 # 2)%Q.
  split; lra.
Qed.

Lemma round_pos_nonneg (x : Q) : (0 < x)%Q -> (0 <= round_pos prec emin x)%Q.
Proof.
  intros Hx. rewrite round_pos_eq. set (u := pow2 (fexp (mag x))).
  assert (Hu : (0 < u)%Q) by apply pow2_pos.
  assert (Ht : (0 <= x / u)%Q).
  { apply Qle_shift_div_l; lra. }
  apply rne_mono in Ht. change 0%Q with (inject_Z 0) in Ht at 1.
  rewrite rne_Z in Ht. rewrite Zle_Qle in Ht.
  change (inject_Z 0) with 0%Q in Ht. nra.
Qed.

Lemma round_pos_upper (x : Q) :
  (0 < x)%Q -> (round_pos prec emin x <= pow2 (fexp (mag x) + prec))%Q.
Proof.
  intros Hx. rewrite round_pos_eq. set (k := fexp (mag x)). set (u := pow2 k).
  assert (Hu : (0 < u)%Q) by apply pow2_pos.
  destruct (mag_spec x Hx) as [_ Hhi].
  assert (Hk : (pow2 (mag x) <= pow2 (k + prec))%Q).
  { apply pow2_le. unfold k, fexp. lia. }
  rewrite pow2_add in Hk |- *. fold u in Hk |- *.
  rewrite (pow2_Z prec) in Hk |- * by lia.
  assert (Ht : (x / u <= inject_Z (2 ^ prec))%Q).
  { apply Qle_shift_div_r; [exact Hu|]. lra. }
  apply rne_mono in Ht. rewrite rne_Z in Ht. rewrite Zle_Qle in Ht.
  nra.
Qed.

Lemma round_pos_lower (y : Q) :
  (0 < y)%Q -> (emin <= mag y - prec)%Z ->
  (pow2 (mag y - 1) <= round_pos prec emin y)%Q.
Proof.
  intros Hy Hnorm. rewrite round_pos_eq.
  replace (fexp (mag y)) with (mag y - prec)%Z by (unfold fexp; lia).
  set (u := pow2 (mag y - prec)).
  assert (Hu : (0 < u)%Q) by apply pow2_pos.
  destruct (mag_spec y Hy) as [Hlo _].
  assert (Hs : (pow2 (mag y - 1) == inject_Z (2 ^ (prec - 1)) * u)%Q).
  { rewrite <- pow2_Z by lia. unfold u. rewrite <- pow2_add.
    replace (prec - 1 + (mag y - prec))%Z with (mag y - 1)%Z by lia.
    reflexivity. }
  rewrite Hs in Hlo |- *.
  assert (Ht : (inject_Z (2 ^ (prec - 1)) <= y / u)%Q).
  { apply Qle_shift_div_l; [exact Hu|]. lra. }
  apply rne_mono in Ht. rewrite rne_Z in Ht. rewrite Zle_Qle in Ht.
  nra.
Qed.

Lemma round_pos_mono (x y : Q) :
  (0 < x)%Q -> (x <= y)%Q ->
  (round_pos prec emin x <= round_pos prec emin y)%Q.
Proof.
  intros Hx Hxy. assert (Hy : (0 < y)%Q) by lra.
  pose proof (mag_mono x y Hx Hxy) as Hm.
  destruct (Z.eq_dec (fexp (mag x)) (fexp (mag y))) as [Heq|Hne].
  - rewrite !round_pos_eq, Heq. set (u := pow2 (fexp (mag y))).
    assert (Hu : (0 < u)%Q) by apply pow2_pos.
    assert (Ht : (x / u <= y / u)%Q).
    { apply Qle_shift_div_l; [exact Hu|].
      assert (H : (x / u * u == x)%Q) by (field; lra). lra. }
    apply rne_mono in Ht. rewrite Zle_Qle in Ht. nra.
  - assert (Hnorm : (emin <= mag y - prec)%Z) by (unfold fexp in Hne; lia).
    pose proof (round_pos_upper x Hx) as Hup.
    pose proof (round_pos_lower y Hy Hnorm) as Hlow.
    assert (Hk : (pow2 (fexp (mag x) + prec) <= pow2 (mag y - 1))%Q).
    { apply pow2_le. unfold fexp in *. lia. }
    lra.
Qed.

Lemma round_mono (x y : Q) :
  (x <= y)%Q -> (round prec emin x <= round prec emin y)%Q.
Proof.
  intros Hxy. unfold round.
  destruct (x ?= 0)%Q eqn:Hx, (y ?= 0)%Q eqn:Hy; qcompare_alt;
    try lra.
  - pose proof (round_pos_nonneg y Hy). lra.
  - pose proof (round_pos_nonneg (- x) ltac:(lra)). lra.
  - pose proof (round_pos_mono (- y) (- x) ltac:(lra) ltac:(lra)). lra.
  - pose proof (round_pos_nonneg (- x) ltac:(lra)).
    pose proof (round_pos_nonneg y Hy). lra.
  - apply round_pos_mono; lra.
Qed.

Lemma round_error (x : Q) (k : Z) :
  (Qabs x < pow2 k)%Q -> (emin <= k - prec)%Z ->
  (Qabs (round prec emin x - x) <= pow2 (k - prec - 1))%Q.
Proof.
  intros Hk Hemin.
  assert (Hhalf : forall z : Q, (0 < z)%Q -> (z < pow2 k)%Q ->
            (pow2 (fexp (mag z)) / 2 <= pow2 (k - prec - 1))%Q).
  { intros z Hz Hzk. pose proof (mag_le z k Hz Hzk) as Hm.
    assert (H : (pow2 (fexp (mag z)) <= pow2 (k - prec))%Q).
    { apply pow2_le. unfold fexp. lia. }
    replace (k - prec)%Z with ((k - prec - 1) + 1)%Z in H by lia.
    rewrite pow2_succ in H. unfold Qdiv. change (/ 2)%Q with (1 # 2)%Q.
    lra. }
  unfold round. destruct (x ?= 0)%Q eqn:Hx; qcompare_alt.
  - pose proof (pow2_pos (k - prec - 1)).
    apply Qabs_Qle_condition. split; lra.
  - rewrite Qabs_neg in Hk by lra.
    pose proof (round_pos_error (- x)) as He.
    pose proof (Hhalf (- x) ltac:(lra) Hk) as Hh.
    apply Qabs_Qle_condition in He. apply Qabs_Qle_condition. split; lra.
  - rewrite Qabs_pos in Hk by lra.
    pose proof (round_pos_error x) as He.
    pose proof (Hhalf x Hx Hk) as Hh.
    apply Qabs_Qle_condition in He. apply Qabs_Qle_condition. split; lra.
Qed.

End Format.

Lemma round_double_mono (x y : Q) :
  (x <= y)%Q -> (round_double x <= round_double y)%Q.
Proof.
  intros H. assert (Hp : (1 <= 53)%Z) by lia.
  exact (round_mono 53 (-1074) Hp x y H).
Qed.

Lemma round_float_mono (x y : Q) :
  (x <= y)%Q -> (round_float x <= round_float y)%Q.
Proof.
  intros H. assert (Hp : (1 <= 24)%Z) by lia.
  exact (round_mono 24 (-149) Hp x y H).
Qed.

Lemma round_double_error (x : Q) :
  (Qabs x < 2)%Q -> (Qabs (round_double x - x) <= 1 # 9007199254740992)%Q.
Proof.
  intros Hx. assert (He : (-1074 <= 1 - 53)%Z) by lia.
  exact (round_error 53 (-1074) x 1 Hx He).
Qed.

Lemma round_float_error (x : Q) :
  (Qabs x < 2)%Q -> (Qabs (round_float x - x) <= 1 # 16777216)%Q.
Proof.
  intros Hx. assert (He : (-149 <= 1 - 24)%Z) by lia.
  exact (round_error 24 (-149) x 1 Hx He).
Qed.

(** Known roundings: 0.1 and 0.4 as [double] and as [float], two ties, and
    the subnormal range of [float]. *)
Example round_known_values :
  (round_double 0.1 == 3602879701896397 # 36028797018963968)%Q /\
  (round_double 0.4 == 3602879701896397 # 9007199254740992)%Q /\
  (round_float 0.1 == 13421773 # 134217728)%Q /\
  (round_float 0.4 == 13421773 # 33554432)%Q /\
  (round_float (1 + (1 # 16777216)) == 1)%Q /\
  (round_float (1 + (3 # 16777216)) == 1 + (1 # 4194304))%Q /\
  (round_float (- (1 + (3 # 16777216))) == - (1 + (1 # 4194304)))%Q /\
  (round_float (pow2 (-150)) == 0)%Q /\
  (round_float (3 * pow2 (-150)) == pow2 (-148))%Q /\
  (round_float (pow2 (-149)) == pow2 (-149))%Q.
Proof. vm_compute. repeat split. Qed.

(** The double literals of the fusion. *)
Lemma double_literals :
  round_double 0.40 = (7205759403792794 # 18014398509481984)%Q /\
  round_double 0.30 = (5404319552844595 # 18014398509481984)%Q /\
  round_double 2.0 = (4503599627370496 # 2251799813685248)%Q.
Proof. vm_compute. repeat split. Qed.

(** Constant divisors turned into constant factors. *)
Ltac q_norm :=
  unfold Qdiv in *;
  repeat match goal with
    | |- context [Qinv ?c] =>
        let c' := eval vm_compute in (Qinv c) in change (Qinv c) with c'
    | H : context [Qinv ?c] |- _ =>
        let c' := eval vm_compute in (Qinv c) in change (Qinv c) with c' in H
    end.

(** Names the innermost double rounding of the goal and records its
    error, the argument being below 2 in magnitude. *)
Ltac round_innermost :=
  match goal with
  | |- context [round_double ?x] =>
      lazymatch x with
      | context [round_double _] => fail
      | _ =>
          let r := fresh "r" in
          let H := fresh "Hr" in
          assert (H : (- (1 # 9007199254740992) <= round_double x - x
                       <= 1 # 9007199254740992)%Q)
            by (apply Qabs_Qle_condition, round_double_error,
                  Qabs_Qlt_condition; split; lra);
          set (r := round_double x) in *; clearbody r
      end
  end.

(** ** Rolling window *)

Lemma initial_window_ok : window_ok initial_firmware.
Proof. split; [reflexivity | simpl; lia]. Qed.

Lemma update_window_ok v fw :
  window_ok fw -> window_ok (update_water_level_buffer v fw).
Proof.
  intros [Hlen Hidx]. split; simpl.
  - by rewrite length_insert.
  - rewrite Z.rem_mod_nonneg by lia.
    apply Z.mod_pos_bound. lia.
Qed.

Lemma record_all_window_ok vs fw :
  window_ok fw -> window_ok (record_all vs fw).
Proof.
  revert fw. induction vs as [|v vs IH]; intros fw Hok; [done|].
  apply IH. by apply update_window_ok.
Qed.

(** Recording drops the oldest entry of the window and appends the new one. *)
Lemma window_update v fw :
  window_ok fw ->
  window (update_water_level_buffer v fw) = drop 1 (window fw) ++ [v].
Proof.
  intros [Hlen Hidx]. unfold window, rotate; simpl.
  rewrite length_insert, Hlen. unfold WINDOW in *.
  set (l := water_level_buffer fw) in *.
  set (n := Z.to_nat (buffer_index fw)).
  assert (Hn : n < 60) by (unfold n; lia).
  rewrite (Nat.mod_small n 60) by done.
  rewrite Z.rem_mod_nonneg by lia.
  replace (Z.to_nat ((buffer_index fw + 1) `mod` 60)) with (S n `mod` 60).
  2:{ unfold n. rewrite <- (Z2Nat.inj_succ _) by lia.
      rewrite Z2Nat.inj_mod by lia. reflexivity. }
  rewrite insert_take_drop by lia.
  assert (Htl : length (take n l) = n) by (rewrite length_take; lia).
  destruct (decide (S n = 60)) as [Heq|Hne].
  - rewrite Heq. change (60 `mod` 60) with 0. simpl. rewrite app_nil_r.
    rewrite (drop_ge l 60) by lia. rewrite drop_0.
    rewrite drop_app_le by (rewrite length_drop; lia).
    rewrite drop_drop. rewrite (drop_ge l (n + 1)) by lia. done.
  - rewrite !(Nat.mod_small (S n) 60) by lia.
    rewrite (cons_middle v), app_assoc.
    rewrite drop_app_length', take_app_length'
      by (rewrite length_app, Htl; simpl; lia).
    rewrite drop_app_le by (rewrite length_drop; lia).
    rewrite drop_drop. replace (n + 1) with (S n) by lia.
    by rewrite <- app_assoc.
Qed.

Lemma window_record_all vs fw :
  window_ok fw ->
  window (record_all vs fw) = drop (length vs) (window fw ++ vs).
Proof.
  revert fw. induction vs as [|v vs IH]; intros fw Hok; simpl.
  - by rewrite app_nil_r.
  - unfold record_all in *. simpl. rewrite IH by (by apply update_window_ok).
    rewrite window_update by done.
    assert (length (window fw) = 60) as Hw.
    { unfold window. rewrite length_rotate. apply Hok. }
    destruct (window fw) as [|x w]; [done|]. simpl. rewrite drop_0.
    by rewrite <- app_assoc.
Qed.

(** The readout walks the buffer from the write cursor, dividing by 100. *)
Lemma read_normalized_window fw :
  window_ok fw -> read_normalized fw = map normalize (window fw).
Proof.
  intros [Hlen Hidx]. unfold read_normalized, sensor_get_data, window, fst.
  set (l := water_level_buffer fw) in *.
  set (n := Z.to_nat (buffer_index fw)).
  assert (Hn : n < 60) by (unfold n; lia).
  apply list_eq. intros i.
  rewrite !list_lookup_fmap.
  destruct (decide (i < 60)) as [Hi|Hi].
  - rewrite lookup_seq_lt by done. simpl.
    rewrite lookup_rotate_r by (rewrite Hlen; done).
    rewrite Hlen. unfold WINDOW.
    replace (rotate_nat_add n i 60) with ((n + i) `mod` 60).
    2:{ unfold rotate_nat_add. rewrite <- Nat2Z.inj_add.
        rewrite <- (Nat2Z.inj_mod (n + i) 60). by rewrite Nat2Z.id. }
    rewrite list_lookup_lookup_total_lt.
    2:{ rewrite Hlen. apply Nat.mod_upper_bound. done. }
    done.
  - rewrite lookup_seq_ge by lia. simpl.
    rewrite lookup_ge_None_2; [done|].
    rewrite length_rotate, Hlen. unfold WINDOW. lia.
Qed.

(** C3 (amended).  Whatever values are recorded into the initially
    zero-filled window, the normalized readout has exactly 60 entries; it
    walks the buffer from the slot under the write cursor, oldest first,
    dividing every entry by 100; its content is the last 60 entries of the
    sequence made of the 60 initial zeros followed by the recorded values.
    Hence once 60 + k values have been recorded the readout is exactly the
    recorded values without the oldest k, each divided by 100. *)
Theorem rolling_window_readout (vs : list cfloat) :
  let fw := record_all vs initial_firmware in
  length (read_normalized fw) = 60 /\
  read_normalized fw =
    map normalize (rotate (Z.to_nat (buffer_index fw)) (water_level_buffer fw)) /\
  read_normalized fw =
    map normalize (drop (length vs) (replicate 60 (Fnum 0) ++ vs)) /\
  (forall k : nat, length vs = 60 + k ->
     read_normalized fw = map normalize (drop k vs)).
Proof.
  intros fw.
  assert (Hok : window_ok fw) by apply record_all_window_ok, initial_window_ok.
  assert (Hwin : window fw = drop (length vs) (replicate 60 (Fnum 0) ++ vs)).
  { unfold fw. rewrite window_record_all by apply initial_window_ok.
    f_equal. }
  assert (Hread := read_normalized_window fw Hok).
  split; [|split; [|split]].
  - rewrite Hread, length_map. unfold window. rewrite length_rotate. apply Hok.
  - exact Hread.
  - by rewrite Hread, Hwin.
  - intros k Hk. rewrite Hread, Hwin, Hk.
    rewrite drop_app_ge by (rewrite length_replicate; lia).
    rewrite length_replicate. do 2 f_equal. lia.
Qed.

(** Sixty-one recorded levels: the readout is the last sixty, scaled. *)
Lemma rolling_window_readout_witness :
  length sixty_one_levels = 60 + 1 /\
  read_normalized (record_all sixty_one_levels initial_firmware) =
    map normalize (drop 1 sixty_one_levels).
Proof.
  split; [reflexivity|].
  apply (rolling_window_readout sixty_one_levels). reflexivity.
Defined.

(** C3 as stated fails during warm-up: after a single [record(50)] the first
    value of the readout is the initial zero, which is no recorded value
    divided by 100. *)
Lemma rolling_window_cold_start :
  ~ Forall (fun x => Exists (fun v => feq x (normalize v)) [Fnum 50])
      (read_normalized (record_all [Fnum 50] initial_firmware)).
Proof.
  intros H.
  assert (Hd : read_normalized (record_all [Fnum 50] initial_firmware) !! 0
               = Some (normalize (Fnum 0))) by reflexivity.
  rewrite Forall_lookup in H. apply H in Hd.
  apply Exists_exists in Hd as [v [Hin Hv]].
  apply list_elem_of_singleton in Hin. subst v.
  vm_compute in Hv. discriminate.
Qed.

(** ** Fusion and alert decision *)

Lemma fgt_num (x y : Q) : fgt (Fnum x) (Fnum y) = true <-> (y < x)%Q.
Proof.
  unfold fgt, flt. rewrite negb_true_iff, <- not_true_iff_false, Qle_bool_iff.
  split; [apply Qnot_le_lt | apply Qlt_not_le].
Qed.

Lemma fle_num (x y : Q) : fle (Fnum x) (Fnum y) = true <-> (x <= y)%Q.
Proof. apply Qle_bool_iff. Qed.

(** What [fuse_and_alert] leaves in [inference_results]. *)
Lemma fuse_and_alert_results (fw : firmware) :
  let r := inference_results fw in
  let score := fuse (blockage_score r) (water_level_class r) (flood_risk r) in
  inference_results (fuse_and_alert fw) =
    mk_results (blockage_score r) (water_level_class r) (flood_risk r) score
      (fst (alert_decision score (water_level_class r) (flood_risk r)))
      (snd (alert_decision score (water_level_class r) (flood_risk r))).
Proof.
  intros r score. unfold fuse_and_alert. fold r. fold score.
  by destruct (alert_decision score (water_level_class r) (flood_risk r)).
Qed.

(** C1.  The level and the message [fuse_and_alert] leaves are a function of
    the stored alert_score, water_level_class and flood_risk, and that
    function tests the HIGH clause first: whenever alert_score > 0.7 and
    water_level_class is 2 it answers HIGH with the critical message, for
    every flood_risk. *)
Theorem high_alert_priority :
  (forall fw : firmware,
     let r := inference_results (fuse_and_alert fw) in
     (alert_level r, alert_message r) =
       alert_decision (alert_score r) (water_level_class r) (flood_risk r)) /\
  (forall (score flood : cfloat) (wl_class : Z),
     fgt score ALERT_THRESHOLD_HIGH = true ->
     wl_class = 2%Z ->
     alert_decision score wl_class flood =
       ("HIGH",
        "CRITICAL: Drainage blockage detected with high water level!")%string).
Proof.
  split.
  - intros fw r. subst r. rewrite fuse_and_alert_results.
    cbn [alert_score water_level_class flood_risk alert_level alert_message].
    by destruct (alert_decision _ _ _).
  - intros score flood wl_class Hscore ->.
    unfold alert_decision. by rewrite Hscore.
Qed.

(** With all three model outputs at their maximum the fused score is 1.0,
    the class is 2, and the alert is HIGH. *)
Lemma high_alert_priority_witness :
  let r := inference_results (fuse_and_alert critical_firmware) in
  fgt (alert_score r) ALERT_THRESHOLD_HIGH = true /\
  water_level_class r = 2%Z /\
  (alert_level r, alert_message r) =
    ("HIGH",
     "CRITICAL: Drainage blockage detected with high water level!")%string.
Proof.
  split; [reflexivity|]. split; [reflexivity|].
  destruct high_alert_priority as [Hfun Hhigh].
  rewrite (Hfun critical_firmware).
  apply Hhigh; reflexivity.
Defined.

(** The thresholds are double literals in the source.  For a value a
    [float] can hold, comparing with the double nearest to 0.7 or 0.5 is the
    same as comparing with 0.7 or 0.5. *)
Lemma threshold_literals (x : Q) :
  (round_float x == x)%Q ->
  fgt (Fnum x) (dlit 0.7) = fgt (Fnum x) (Fnum 0.7) /\
  fgt (Fnum x) (dlit 0.5) = fgt (Fnum x) (Fnum 0.5).
Proof.
  intros Hx. unfold dlit. split.
  - assert (Hc : (round_double 0.7 < 0.7)%Q) by (vm_compute; reflexivity).
    assert (Hlo : (round_float (round_double 0.7) < round_double 0.7)%Q)
      by (vm_compute; reflexivity).
    assert (Hsame : (round_float 0.7 <= round_float (round_double 0.7))%Q)
      by (vm_compute; discriminate).
    destruct (fgt (Fnum x) (Fnum 0.7)) eqn:E.
    + apply fgt_num in E. apply fgt_num. lra.
    + apply not_true_iff_false in E. rewrite fgt_num in E.
      apply not_true_iff_false. rewrite fgt_num. intros Hgt.
      assert (Hle : (x <= 0.7)%Q) by lra.
      apply round_float_mono in Hle. lra.
  - assert (Hc : (round_double 0.5 == 0.5)%Q) by (vm_compute; reflexivity).
    destruct (fgt (Fnum x) (Fnum 0.5)) eqn:E.
    + apply fgt_num in E. apply fgt_num. lra.
    + apply not_true_iff_false in E. rewrite fgt_num in E.
      apply not_true_iff_false. rewrite fgt_num. lra.
Qed.

(** The double-precision sum of the fusion, on numbers. *)
Lemma fuse_double_num (b f : Q) (w : Z) :
  fuse_double (Fnum b) w (Fnum f) =
    Fnum (round_double
            (round_double
               (round_double (round_double 0.40 * b) +
                round_double
                  (round_double 0.30 *
                   round_double (inject_Z w / round_double 2.0))) +
             round_double (round_double 0.30 * f))).
Proof. reflexivity. Qed.

(** With scores in [0, 1] and the class in 0..2 the double-precision sum is
    within 2^-50 of the exact weighted sum. *)
Lemma fuse_double_error (b f : Q) (w : Z) :
  (0 <= b <= 1)%Q -> (0 <= f <= 1)%Q -> (0 <= w <= 2)%Z ->
  exists s : Q,
    fuse_double (Fnum b) w (Fnum f) = Fnum s /\
    (Qabs (s - (0.40 * b + 0.30 * (inject_Z w / 2) + 0.30 * f))
       <= 1 # 1125899906842624)%Q.
Proof.
  intros Hb Hf [Hw0 Hw2]. rewrite fuse_double_num. eexists.
  split; [reflexivity|].
  rewrite Zle_Qle in Hw0, Hw2.
  change (inject_Z 0) with 0%Q in Hw0. change (inject_Z 2) with 2%Q in Hw2.
  set (W := inject_Z w) in *. clearbody W.
  destruct double_literals as (-> & -> & ->).
  q_norm. repeat round_innermost.
  apply Qabs_Qle_condition. split; lra.
Qed.

(** The double-precision sum grows with each of its three inputs. *)
Lemma fuse_double_mono (b b' f f' : Q) (w w' : Z) :
  (b <= b')%Q -> (w <= w')%Z -> (f <= f')%Q ->
  exists s s' : Q,
    fuse_double (Fnum b) w (Fnum f) = Fnum s /\
    fuse_double (Fnum b') w' (Fnum f') = Fnum s' /\
    (s <= s')%Q.
Proof.
  intros Hb Hw Hf. rewrite !fuse_double_num. do 2 eexists.
  split; [reflexivity|]. split; [reflexivity|].
  rewrite Zle_Qle in Hw.
  destruct double_literals as (-> & -> & ->).
  apply round_double_mono, Qplus_le_compat;
    [apply round_double_mono, Qplus_le_compat|];
    apply round_double_mono.
  - lra.
  - assert (H : (round_double
                   (inject_Z w / (4503599627370496 # 2251799813685248)) <=
                 round_double
                   (inject_Z w' / (4503599627370496 # 2251799813685248)))%Q).
    { apply round_double_mono. q_norm. lra. }
    lra.
  - lra.
Qed.

(** C2 (amended).  [fuse_and_alert] stores in [alert_score] the 32-bit float
    nearest to the double-precision value of
    0.40 * blockage_score + 0.30 * (water_level_class / 2.0) + 0.30 * flood_risk,
    every literal, the quotient, the products and the sums being rounded to
    double, and the class being divided by two as a fraction before it is
    weighted.  The stored score equals the exact weighted sum only up to
    that rounding: with both scores in [0, 1] and the class in 0..2 it is
    within 2^-23 of it. *)
Theorem fused_score_rounded :
  (forall fw : firmware,
     let r := inference_results fw in
     alert_score (inference_results (fuse_and_alert fw)) =
       to_float
         (fuse_double (blockage_score r) (water_level_class r)
            (flood_risk r))) /\
  (forall (b f : Q) (w : Z),
     fuse (Fnum b) w (Fnum f) =
       Fnum (round_float
               (round_double
                  (round_double
                     (round_double (round_double 0.40 * b) +
                      round_double
                        (round_double 0.30 *
                         round_double (inject_Z w / round_double 2.0))) +
                   round_double (round_double 0.30 * f))))) /\
  (forall (b f : Q) (w : Z),
     (0 <= b <= 1)%Q -> (0 <= f <= 1)%Q -> (0 <= w <= 2)%Z ->
     exists s : Q,
       fuse (Fnum b) w (Fnum f) = Fnum s /\
       (Qabs (s - (0.40 * b + 0.30 * (inject_Z w / 2) + 0.30 * f))
          <= 1 # 8388608)%Q).
Proof.
  split; [|split].
  - intros fw r. subst r. by rewrite fuse_and_alert_results.
  - intros b f w. unfold fuse. by rewrite fuse_double_num.
  - intros b f w Hb Hf Hw.
    pose proof Hw as [Hw0 Hw2]. rewrite Zle_Qle in Hw0, Hw2.
    change (inject_Z 0) with 0%Q in Hw0. change (inject_Z 2) with 2%Q in Hw2.
    destruct (fuse_double_error b f w Hb Hf Hw) as (s & Hs & Herr).
    unfold fuse. rewrite Hs. eexists. split; [reflexivity|].
    apply Qabs_Qle_condition in Herr.
    assert (Hfl : (Qabs (round_float s - s) <= 1 # 16777216)%Q).
    { apply round_float_error, Qabs_Qlt_condition.
      q_norm. split; lra. }
    apply Qabs_Qle_condition in Hfl.
    apply Qabs_Qle_condition. q_norm. split; lra.
Qed.

(** On blockage 1, class 2 and the float nearest to 1e-8 the stored score is
    within the bound of the exact sum 0.700000003. *)
Lemma fused_score_rounded_witness :
  exists s : Q,
    fuse (Fnum 1) 2 (Fnum (round_float 1e-8)) = Fnum s /\
    (Qabs (s - (0.40 * 1 + 0.30 * (inject_Z 2 / 2)
                + 0.30 * round_float 1e-8)) <= 1 # 8388608)%Q.
Proof.
  destruct fused_score_rounded as (_ & _ & Hbound).
  apply Hbound; [| |lia]; vm_compute; split; discriminate.
Defined.

(** C2 as stated fails: on blockage 1, class 2 and flood risk 1e-8 (the
    nearest float) the exact weighted sum is 0.700000003 while the stored
    score is the float 0.69999999. *)
Lemma fused_score_not_exact :
  ~ feq
      (alert_score
         (inference_results
            (fuse_and_alert
               (with_results
                  (mk_results (Fnum 1) 2 (Fnum (round_float 1e-8)) (Fnum 0)
                     "LOW" "")
                  initial_firmware))))
      (Fnum (0.40 * 1 + 0.30 * (inject_Z 2 / 2) + 0.30 * round_float 1e-8)).
Proof. vm_compute. discriminate. Qed.

(** There the rounding decides the alert: the exact sum is above 0.7, the
    stored score is not, and the level is MEDIUM. *)
Example rounding_decides_the_level :
  let f := round_float 1e-8 in
  let r := inference_results
             (fuse_and_alert
                (with_results
                   (mk_results (Fnum 1) 2 (Fnum f) (Fnum 0) "LOW" "")
                   initial_firmware)) in
  fgt (Fnum (0.40 * 1 + 0.30 * (inject_Z 2 / 2) + 0.30 * f))
    ALERT_THRESHOLD_HIGH = true /\
  fgt (alert_score r) ALERT_THRESHOLD_HIGH = false /\
  alert_level r = "MEDIUM"%string.
Proof. vm_compute. repeat split. Qed.

(** C4 (amended).  For alert_score 0.1, class 1 and flood risk 0.1 the
    decision is MEDIUM, reached through the class disjunct of the single
    clause [alert_score > 0.5 || water_level_class == 1] (the score is not
    above 0.5), and its message is the same text as in the score-triggered
    case (alert_score 0.55, class 0, flood risk 0.2), which takes the same
    clause. *)
Theorem class_triggered_medium :
  alert_decision (Fnum 0.1) 1 (Fnum 0.1) =
    ("MEDIUM",
     "WARNING: Potential blockage or elevated water level detected.")%string /\
  fgt (Fnum 0.1) ALERT_THRESHOLD_MEDIUM = false /\
  alert_decision (Fnum 0.55) 0 (Fnum 0.2) =
    ("MEDIUM",
     "WARNING: Potential blockage or elevated water level detected.")%string /\
  fgt (Fnum 0.55) ALERT_THRESHOLD_MEDIUM = true /\
  snd (alert_decision (Fnum 0.1) 1 (Fnum 0.1)) =
    snd (alert_decision (Fnum 0.55) 0 (Fnum 0.2)).
Proof. repeat split. Qed.

(** C4 as stated fails: the class-triggered and the score-triggered MEDIUM
    carry the same message. *)
Lemma class_triggered_message_not_distinct :
  ~ (fst (alert_decision (Fnum 0.1) 1 (Fnum 0.1)) = "MEDIUM"%string /\
     snd (alert_decision (Fnum 0.1) 1 (Fnum 0.1)) <>
       snd (alert_decision (Fnum 0.55) 0 (Fnum 0.2))).
Proof. intros [_ Hne]. by apply Hne. Qed.

(** C8.  The decision is MEDIUM with the flood-risk message exactly when the
    HIGH clause and the first MEDIUM clause both fail and flood_risk > 0.7;
    that message differs from the message of the first MEDIUM clause; and
    alert_score 0.2, class 0, flood risk 0.8 gives MEDIUM with the flood-risk
    message. *)
Theorem flood_risk_clause :
  (forall (score flood : cfloat) (wl_class : Z),
     alert_decision score wl_class flood =
       ("MEDIUM",
        "WARNING: Flood risk predicted based on weather patterns.")%string
     <->
     fgt score ALERT_THRESHOLD_HIGH && (wl_class =? 2)%Z = false /\
     fgt score ALERT_THRESHOLD_MEDIUM || (wl_class =? 1)%Z = false /\
     fgt flood (Fnum 0.7) = true) /\
  "WARNING: Flood risk predicted based on weather patterns."%string <>
    "WARNING: Potential blockage or elevated water level detected."%string /\
  alert_decision (Fnum 0.2) 0 (Fnum 0.8) =
    ("MEDIUM",
     "WARNING: Flood risk predicted based on weather patterns.")%string.
Proof.
  split; [|split; [discriminate | reflexivity]].
  intros score flood wl_class. unfold alert_decision.
  destruct (fgt score ALERT_THRESHOLD_HIGH && (wl_class =? 2)%Z);
    [split; [discriminate | intros [? _]; discriminate]|].
  destruct (fgt score ALERT_THRESHOLD_MEDIUM || (wl_class =? 1)%Z);
    [split; [discriminate | intros [_ [? _]]; discriminate]|].
  destruct (fgt flood (Fnum 0.7));
    [done | split; [discriminate | intros [_ [_ ?]]; discriminate]].
Qed.

(** ** Sensor reads *)

Lemma in_range_num (lo hi x : Q) :
  in_range (Fnum lo) (Fnum hi) (Fnum x) = true <-> (lo <= x <= hi)%Q.
Proof.
  unfold in_range. rewrite andb_true_iff, !fle_num. reflexivity.
Qed.

(** On a number, [constrain] lands in the range (for [lo <= hi]). *)
Lemma constrain_in_range (x lo hi : Q) :
  (lo <= hi)%Q ->
  in_range (Fnum lo) (Fnum hi) (constrain (Fnum x) (Fnum lo) (Fnum hi)) = true.
Proof.
  intros Hlh. unfold constrain.
  destruct (flt (Fnum x) (Fnum lo)) eqn:Hlo.
  { apply in_range_num. lra. }
  destruct (fgt (Fnum x) (Fnum hi)) eqn:Hhi.
  { apply in_range_num. lra. }
  apply in_range_num.
  apply not_true_iff_false in Hlo, Hhi.
  rewrite (fgt_num x hi) in Hhi.
  change (flt (Fnum x) (Fnum lo)) with (fgt (Fnum lo) (Fnum x)) in Hlo.
  rewrite fgt_num in Hlo. lra.
Qed.


(** NaN goes through [constrain] unchanged: both comparisons are false. *)
Lemma constrain_nan (lo hi : cfloat) : constrain Fnan lo hi = Fnan.
Proof. unfold constrain, fgt. by destruct lo, hi. Qed.

(** The guarded path: a NaN from the DHT22 leaves the whole state as it was,
    and numbers are stored clamped. *)
Lemma read_dht22_nan (temp hum : cfloat) (fw : firmware) :
  isnan temp || isnan hum = true -> read_dht22 temp hum fw = fw.
Proof. intros H. unfold read_dht22. by rewrite H. Qed.

Lemma read_dht22_valid (t h : Q) (fw : firmware) :
  let e := current_env_data (read_dht22 (Fnum t) (Fnum h) fw) in
  in_range (of_int 15) (of_int 40) (temperature e) = true /\
  in_range (of_int 0) (of_int 100) (humidity e) = true.
Proof.
  simpl. split; apply constrain_in_range; unfold inject_Z; lra.
Qed.

(** C5 (defect).  [read_bmp280] has no NaN guard: when the driver returns NaN
    the stored pressure becomes NaN (shown on a state holding 1013 hPa), and
    whatever the driver returns, the pressure stored afterwards does not
    depend on the one stored before.  The same state survives a NaN from the
    DHT22, whose reader has the guard. *)
Theorem read_bmp280_nan_overwrites :
  let fw := with_env (mk_env (Fnum 25) (Fnum 50) (Fnum 1013) (Fnum 0) (Fnum 0))
              initial_firmware in
  pressure (current_env_data fw) = Fnum 1013 /\
  pressure (current_env_data (read_bmp280 Fnan fw)) = Fnan /\
  read_dht22 Fnan Fnan fw = fw /\
  (forall fw' : firmware,
     pressure (current_env_data (read_bmp280 Fnan fw')) = Fnan) /\
  (forall (raw : cfloat) (fw1 fw2 : firmware),
     pressure (current_env_data (read_bmp280 raw fw1)) =
     pressure (current_env_data (read_bmp280 raw fw2))).
Proof. repeat split. Qed.

(** ** Environmental features *)




(** ** Inference cycle *)

Section CycleProperties.

Variable EI_CLASSIFIER_INPUT_SIZE : nat.
Variable run_classifier : classifier.

Local Abbreviation visual := (run_visual_inference EI_CLASSIFIER_INPUT_SIZE run_classifier).
Local Abbreviation sensor := (run_sensor_inference run_classifier).
Local Abbreviation environmental := (run_environmental_inference run_classifier).
Local Abbreviation cycle := (inference_cycle EI_CLASSIFIER_INPUT_SIZE run_classifier).

(** The three model outputs after the model calls: each call sees the buffer
    and the environmental data of the state the block started from. *)
Lemma run_models_results (frame : list Z) (fw : firmware) :
  let r := inference_results
             (run_models EI_CLASSIFIER_INPUT_SIZE run_classifier frame fw) in
  blockage_score r = visual frame /\
  water_level_class r = sensor fw /\
  flood_risk r = environmental fw.
Proof. done. Qed.

Lemma cycle_results (inp : loop_inputs) (fw : firmware) :
  inference_results (fst (cycle inp fw)) =
  inference_results
    (fuse_and_alert
       (run_models EI_CLASSIFIER_INPUT_SIZE run_classifier (in_frame inp) fw)).
Proof. done. Qed.

(** [loop] keeps the rolling-window invariant: only
    [update_water_level_buffer] writes the buffer and its cursor. *)
Lemma loop_window_ok (inp : loop_inputs) (fw : firmware) :
  window_ok fw ->
  window_ok (fst (loop EI_CLASSIFIER_INPUT_SIZE run_classifier inp fw)).
Proof.
  intros Hok. unfold loop.
  set (fw1 := if (ENV_INTERVAL <=? _)%Z then _ else fw).
  assert (Hok1 : window_ok fw1).
  { subst fw1. destruct (ENV_INTERVAL <=? _)%Z; [|done].
    unfold read_dht22. by destruct (isnan _ || isnan _). }
  clearbody fw1.
  set (fw2 := if (SENSOR_INTERVAL <=? _)%Z then _ else fw1).
  assert (Hok2 : window_ok fw2).
  { subst fw2. destruct (SENSOR_INTERVAL <=? _)%Z; [|done].
    by apply (update_window_ok (read_ultrasonic (in_echo_duration inp))) in Hok1. }
  clearbody fw2.
  destruct (CAMERA_INTERVAL <=? _)%Z; [|done].
  unfold inference_cycle, fuse_and_alert. cbn [fst].
  by destruct (alert_decision _ _ _).
Qed.

(** C7.  After the inference block every model output is that model's own
    result, whatever happened to the other two; a model whose classifier call
    returns an error contributes its default (0.0, class 0, 0.0) and one whose
    call succeeds contributes what is extracted from its result; and the
    fusion is carried out on these three values. *)
Theorem classifier_failure_not_fatal (inp : loop_inputs) (fw : firmware) :
  let r := inference_results (fst (cycle inp fw)) in
  (blockage_score r = visual (in_frame inp) /\
   water_level_class r = sensor fw /\
   flood_risk r = environmental fw) /\
  ((fst (run_classifier (visual_signal EI_CLASSIFIER_INPUT_SIZE)) <> EI_IMPULSE_OK ->
    blockage_score r = Fnum 0.0) /\
   (fst (run_classifier (sensor_signal fw)) <> EI_IMPULSE_OK ->
    water_level_class r = 0%Z) /\
   (fst (run_classifier (env_signal fw)) <> EI_IMPULSE_OK ->
    flood_risk r = Fnum 0.0)) /\
  ((fst (run_classifier (visual_signal EI_CLASSIFIER_INPUT_SIZE)) = EI_IMPULSE_OK ->
    blockage_score r =
      score_of_label "blockage"
        (snd (run_classifier (visual_signal EI_CLASSIFIER_INPUT_SIZE)))) /\
   (fst (run_classifier (sensor_signal fw)) = EI_IMPULSE_OK ->
    water_level_class r =
      class_of_result (snd (run_classifier (sensor_signal fw)))) /\
   (fst (run_classifier (env_signal fw)) = EI_IMPULSE_OK ->
    flood_risk r =
      score_of_label "high_risk" (snd (run_classifier (env_signal fw))))) /\
  alert_score r =
    fuse (blockage_score r) (water_level_class r) (flood_risk r) /\
  (alert_level r, alert_message r) =
    alert_decision (alert_score r) (water_level_class r) (flood_risk r).
Proof.
  intros r. subst r. rewrite cycle_results, fuse_and_alert_results.
  cbn [blockage_score water_level_class flood_risk alert_score alert_level
       alert_message].
  destruct (run_models_results (in_frame inp) fw) as (Hb & Hw & Hf).
  rewrite Hb, Hw, Hf. clear Hb Hw Hf.
  unfold run_visual_inference, run_sensor_inference,
    run_environmental_inference, EI_IMPULSE_OK.
  destruct (run_classifier (visual_signal EI_CLASSIFIER_INPUT_SIZE)) as [e1 r1].
  destruct (run_classifier (sensor_signal fw)) as [e2 r2].
  destruct (run_classifier (env_signal fw)) as [e3 r3].
  cbn [fst snd].
  split; [done|]. split; [|split; [|split]].
  - repeat split; intros Hne; apply Z.eqb_neq in Hne; by rewrite Hne.
  - repeat split; intros ->; done.
  - done.
  - by destruct (alert_decision _ _ _).
Qed.

(** C9.  The inference block produces a payload exactly when the computed
    level is not LOW and WiFi is connected; a payload carries the computed
    alert state; and pushed or not, the state handed on (and so what the
    alert and status queries read) is the state [fuse_and_alert] computed. *)
Theorem alert_push_condition (inp : loop_inputs) (fw : firmware) :
  let fw' := fst (cycle inp fw) in
  let sent := snd (cycle inp fw) in
  let computed :=
    fuse_and_alert
      (run_models EI_CLASSIFIER_INPUT_SIZE run_classifier (in_frame inp) fw) in
  (is_Some sent <->
   alert_level (inference_results fw') <> "LOW"%string /\
   in_wifi_connected inp = true) /\
  (forall p : alert_payload, sent = Some p ->
     p_alert_level p = alert_level (inference_results fw') /\
     p_alert_message p = alert_message (inference_results fw') /\
     p_timestamp p = in_send_millis inp) /\
  fw' = with_last_camera_time (in_millis inp) computed /\
  handle_alerts fw' = handle_alerts computed /\
  (forall now : Z, handle_status now fw' = handle_status now computed).
Proof.
  intros fw' sent computed.
  split; [|split; [|done]].
  - subst sent fw'. unfold inference_cycle. cbn [fst snd].
    fold computed.
    change (inference_results (with_last_camera_time (in_millis inp) computed))
      with (inference_results computed).
    unfold send_alert.
    destruct (String.eqb_spec (alert_level (inference_results computed)) "LOW")
      as [Heq|Hne]; cbn [negb].
    + split; [intros [? ?]; discriminate | intros [Hl _]; by destruct Hl].
    + destruct (in_wifi_connected inp); cbn [negb].
      * split; [done | eauto].
      * split; [intros [? ?]; discriminate | intros [_ ?]; discriminate].
  - subst sent fw'. unfold inference_cycle. cbn [fst snd]. fold computed.
    intros p Hp.
    destruct (negb _) in Hp; [|discriminate].
    unfold send_alert in Hp.
    destruct (negb (in_wifi_connected inp)); [discriminate|].
    injection Hp as <-. done.
Qed.

(** C10.  [run_visual_inference] gives the same score for any two frames:
    the classifier is run on a signal that does not mention the frame and
    whose callback delivers zeros for every offset and length. *)
Theorem visual_inference_ignores_frame :
  (forall frame1 frame2 : list Z, visual frame1 = visual frame2) /\
  (forall offset len : nat,
     get_data (visual_signal EI_CLASSIFIER_INPUT_SIZE) offset len =
       (replicate len (Fnum 0), 0%Z)).
Proof. done. Qed.

End CycleProperties.

(** A failed visual call next to two successful ones: the visual score falls
    back to 0.0, the other two outputs are the classifier's, and the cycle
    ends with a MEDIUM alert. *)
Lemma classifier_failure_not_fatal_witness :
  let r := inference_results
             (fst (inference_cycle 96 sample_classifier sample_inputs
                     initial_firmware)) in
  fst (sample_classifier (visual_signal 96)) <> EI_IMPULSE_OK /\
  blockage_score r = Fnum 0.0 /\
  water_level_class r = 1%Z /\
  flood_risk r = Fnum 0.8 /\
  alert_level r = "MEDIUM"%string.
Proof.
  destruct (classifier_failure_not_fatal 96 sample_classifier sample_inputs
              initial_firmware) as (_ & (Hv & _) & _).
  split; [discriminate|]. split; [apply Hv; discriminate|].
  repeat split.
Defined.

(** With WiFi down the same cycle pushes nothing and keeps the alert. *)
Example sample_cycle_offline :
  snd (inference_cycle 96 sample_classifier sample_inputs initial_firmware)
    = None /\
  a_alert_level
    (handle_alerts
       (fst (inference_cycle 96 sample_classifier sample_inputs
               initial_firmware))) = "MEDIUM"%string.
Proof. split; reflexivity. Qed.

(** One pass of [loop] with all three activities due, WiFi connected and a
    NaN humidity: the DHT22 values are skipped, pressure, rainfall and water
    level are stored, and the MEDIUM alert is pushed. *)
Example sample_loop_pass :
  let inp :=
    mk_inputs 60000 (Fnum 25) Fnan (Fnum 101300) 2048 2000 [] true 60010 in
  let '(fw, sent) := loop 96 sample_classifier inp initial_firmware in
  temperature (current_env_data fw) = Fnum 0 /\
  feq (pressure (current_env_data fw)) (Fnum 1013) /\
  rainfall (current_env_data fw) = Fnum 50 /\
  feq (water_level (current_env_data fw)) (Fnum 34.3) /\
  buffer_index fw = 1%Z /\
  last_env_time fw = 60000%Z /\
  alert_level (inference_results fw) = "MEDIUM"%string /\
  p_timestamp <$> sent = Some 60010%Z.
Proof. vm_compute. repeat split. Qed.

(** The flood-risk clause through [fuse_and_alert]: no blockage, class 0 and
    flood risk 0.8 fuse to the float next to 0.24, and the alert is the
    flood-risk MEDIUM. *)
Example flood_risk_alert :
  let fw := with_results (mk_results (Fnum 0) 0 (Fnum 0.8) (Fnum 0) "LOW" "")
              initial_firmware in
  let r := inference_results (fuse_and_alert fw) in
  in_range (Fnum 0.2399999) (Fnum 0.2400001) (alert_score r) = true /\
  alert_level r = "MEDIUM"%string /\
  alert_message r =
    "WARNING: Flood risk predicted based on weather patterns."%string.
Proof. vm_compute. repeat split. Qed.

(** The remaining decision examples of the specification. *)
Example score_triggered_medium :
  fst (alert_decision (Fnum 0.55) 0 (Fnum 0.2)) = "MEDIUM"%string.
Proof. reflexivity. Qed.

Example low_alert :
  alert_decision (Fnum 0.1) 0 (Fnum 0.1) =
    ("LOW", "OK: Drainage system operating normally.")%string.
Proof. reflexivity. Qed.

(** * Further properties of the firmware *)

(** ** Sensor readers *)

Lemma constrain_id (x lo hi : Q) :
  (lo <= x <= hi)%Q -> constrain (Fnum x) (Fnum lo) (Fnum hi) = Fnum x.
Proof.
  intros [Hlo Hhi]. unfold constrain.
  destruct (flt (Fnum x) (Fnum lo)) eqn:E1.
  { change (flt (Fnum x) (Fnum lo)) with (fgt (Fnum lo) (Fnum x)) in E1.
    apply fgt_num in E1. lra. }
  destruct (fgt (Fnum x) (Fnum hi)) eqn:E2; [|done].
  apply fgt_num in E2. lra.
Qed.

Lemma constrain_low (x lo hi : Q) :
  (x < lo)%Q -> constrain (Fnum x) (Fnum lo) (Fnum hi) = Fnum lo.
Proof.
  intros Hx. unfold constrain.
  change (flt (Fnum x) (Fnum lo)) with (fgt (Fnum lo) (Fnum x)).
  apply fgt_num in Hx. by rewrite Hx.
Qed.

Lemma constrain_high (x lo hi : Q) :
  (lo <= x)%Q -> (hi < x)%Q ->
  constrain (Fnum x) (Fnum lo) (Fnum hi) = Fnum hi.
Proof.
  intros Hlo Hhi. unfold constrain.
  destruct (flt (Fnum x) (Fnum lo)) eqn:E1.
  { change (flt (Fnum x) (Fnum lo)) with (fgt (Fnum lo) (Fnum x)) in E1.
    apply fgt_num in E1. lra. }
  apply fgt_num in Hhi. by rewrite Hhi.
Qed.

(** X1.  [read_dht22] on two numbers stores the temperature clamped to
    [15, 40] and the humidity clamped to [0, 100]: the value itself when it
    is in range, the lower bound below it, the upper bound above it.  It
    touches no other field, buffer, cursor, result or timer; a NaN in either
    reading discards the other reading too. *)
Theorem read_dht22_stores_clamped (t h : Q) (fw : firmware) :
  let fw' := read_dht22 (Fnum t) (Fnum h) fw in
  let e := current_env_data fw in
  let e' := current_env_data fw' in
  in_range (of_int 15) (of_int 40) (temperature e') = true /\
  in_range (of_int 0) (of_int 100) (humidity e') = true /\
  ((15 <= t <= 40)%Q -> temperature e' = Fnum t) /\
  ((0 <= h <= 100)%Q -> humidity e' = Fnum h) /\
  (((t < 15)%Q -> temperature e' = of_int 15) /\
   ((40 < t)%Q -> temperature e' = of_int 40) /\
   ((h < 0)%Q -> humidity e' = of_int 0) /\
   ((100 < h)%Q -> humidity e' = of_int 100)) /\
  (pressure e' = pressure e /\ rainfall e' = rainfall e /\
   water_level e' = water_level e) /\
  (water_level_buffer fw' = water_level_buffer fw /\
   buffer_index fw' = buffer_index fw /\
   inference_results fw' = inference_results fw) /\
  (last_camera_time fw' = last_camera_time fw /\
   last_sensor_time fw' = last_sensor_time fw /\
   last_env_time fw' = last_env_time fw) /\
  (forall x : cfloat,
     read_dht22 x Fnan fw = fw /\ read_dht22 Fnan x fw = fw).
Proof.
  cbn zeta. cbn [read_dht22 isnan orb with_env current_env_data temperature
    humidity pressure rainfall water_level water_level_buffer buffer_index
    inference_results last_camera_time last_sensor_time last_env_time].
  split; [apply constrain_in_range; unfold inject_Z; lra|].
  split; [apply constrain_in_range; unfold inject_Z; lra|].
  split; [intros H; by apply constrain_id|].
  split; [intros H; by apply constrain_id|].
  split.
  { split; [intros H; by apply constrain_low|].
    split; [intros H; apply constrain_high; unfold inject_Z; lra|].
    split; [intros H; by apply constrain_low|].
    intros H. apply constrain_high; unfold inject_Z; lra. }
  split; [done|]. split; [done|]. split; [done|].
  intros x. split; [|done].
  unfold read_dht22. by rewrite orb_true_r.
Qed.


Lemma read_ultrasonic_bounded (duration : Z) :
  in_range (of_int 0) (of_int 100) (read_ultrasonic duration) = true.
Proof.
  unfold read_ultrasonic.
  change (fdiv (fmul (of_int duration) (Fnum 0.0343)) (of_int 2))
    with (Fnum (inject_Z duration * 0.0343 / inject_Z 2)).
  apply constrain_in_range. unfold inject_Z. lra.
Qed.


(** X3.  For an ADC value in 0..4095 [read_rain_sensor] stores the integer
    part of value * 100 / 4095: a whole number in [0, 100], 0 at 0 and 100 at
    4095, never decreasing in the ADC value; the other fields keep their
    values. *)
Theorem read_rain_sensor_range (v : Z) (fw : firmware) :
  (0 <= v <= 4095)%Z ->
  let e := current_env_data fw in
  let e' := current_env_data (read_rain_sensor v fw) in
  rainfall e' = of_int ((v * 100) / 4095)%Z /\
  in_range (of_int 0) (of_int 100) (rainfall e') = true /\
  (forall v2 : Z, (v <= v2 <= 4095)%Z ->
     fle (rainfall e') (rainfall (current_env_data (read_rain_sensor v2 fw)))
       = true) /\
  temperature e' = temperature e /\ humidity e' = humidity e /\
  pressure e' = pressure e /\ water_level e' = water_level e.
Proof.
  intros Hv. cbn zeta. unfold read_rain_sensor, map_range.
  cbn [with_env current_env_data temperature humidity pressure rainfall
    water_level].
  change (4095 - 0 =? 0)%Z with false. cbv iota.
  assert (Hq : forall x : Z, (0 <= x)%Z ->
            ((x - 0) * (100 - 0) ÷ (4095 - 0) + 0 = (x * 100) / 4095)%Z).
  { intros x Hx. rewrite Z.add_0_r, Z.sub_0_r.
    change (100 - 0)%Z with 100%Z. change (4095 - 0)%Z with 4095%Z.
    apply Z.quot_div_nonneg; lia. }
  rewrite Hq by lia.
  assert (Hr : (0 <= v * 100 / 4095 <= 100)%Z).
  { split; [apply Z.div_pos; lia|].
    apply Z.div_le_upper_bound; lia. }
  split; [done|]. split.
  { apply in_range_num. rewrite <- !Zle_Qle. exact Hr. }
  split; [|done].
  intros v2 Hv2. rewrite Hq by lia.
  apply fle_num. rewrite <- Zle_Qle. apply Z.div_le_mono; lia.
Qed.

Lemma read_rain_sensor_range_witness :
  (0 <= 2048 <= 4095)%Z /\
  rainfall (current_env_data (read_rain_sensor 2048 initial_firmware))
    = of_int 50.
Proof.
  split; [lia|].
  apply (read_rain_sensor_range 2048 initial_firmware). lia.
Defined.

(** ** Rolling window, continued *)

Lemma record_all_buffer_index vs fw :
  window_ok fw ->
  buffer_index (record_all vs fw) =
    ((buffer_index fw + Z.of_nat (length vs)) mod 60)%Z.
Proof.
  revert fw. induction vs as [|v vs IH]; intros fw Hok.
  - simpl. rewrite Z.add_0_r, Z.mod_small; [done | apply Hok].
  - change (record_all (v :: vs) fw)
      with (record_all vs (update_water_level_buffer v fw)).
    rewrite IH by (by apply update_window_ok).
    destruct Hok as [_ Hidx]. cbn [buffer_index update_water_level_buffer].
    rewrite Z.rem_mod_nonneg by lia.
    rewrite Zplus_mod_idemp_l. f_equal. cbn [length]. lia.
Qed.

(** X5.  What [loop] records: [update_water_level_buffer] applied to a
    [read_ultrasonic] result writes that value at the cursor, leaves every
    other slot alone, and stores the very same value in
    [current_env_data.water_level], the second clamp changing nothing. *)
Theorem update_with_ultrasonic (duration : Z) (fw : firmware) :
  window_ok fw ->
  let v := read_ultrasonic duration in
  let fw' := update_water_level_buffer v fw in
  water_level_buffer fw' !! Z.to_nat (buffer_index fw) = Some v /\
  (forall i : nat, i <> Z.to_nat (buffer_index fw) ->
     water_level_buffer fw' !! i = water_level_buffer fw !! i) /\
  water_level (current_env_data fw') = v /\
  buffer_index fw' = ((buffer_index fw + 1) mod 60)%Z.
Proof.
  intros [Hlen Hidx] v fw'. subst fw'.
  cbn [update_water_level_buffer water_level_buffer buffer_index
    current_env_data water_level].
  split; [apply list_lookup_insert_eq; unfold WINDOW in Hlen; lia|].
  split; [intros i Hi; by apply list_lookup_insert_ne|].
  split; [|by rewrite Z.rem_mod_nonneg by lia].
  pose proof (read_ultrasonic_bounded duration) as Hr. fold v in Hr.
  destruct v as [x|]; [|discriminate].
  apply in_range_num in Hr. by apply constrain_id.
Qed.

Lemma update_with_ultrasonic_witness :
  window_ok initial_firmware /\
  water_level
    (current_env_data
       (update_water_level_buffer (read_ultrasonic 2000) initial_firmware))
    = read_ultrasonic 2000.
Proof.
  split; [apply initial_window_ok|].
  apply (update_with_ultrasonic 2000 initial_firmware), initial_window_ok.
Defined.

(** X6.  Recording one value slides the readout: the oldest entry leaves at
    the front and the new value, divided by 100, enters at the back. *)
Theorem readout_slides (v : cfloat) (fw : firmware) :
  window_ok fw ->
  read_normalized (update_water_level_buffer v fw) =
    drop 1 (read_normalized fw) ++ [normalize v].
Proof.
  intros Hok.
  rewrite !read_normalized_window by (try apply update_window_ok; done).
  rewrite window_update by done.
  change map with (@fmap list _). by rewrite fmap_app, fmap_drop.
Qed.

Lemma readout_slides_witness :
  window_ok initial_firmware /\
  last (read_normalized (update_water_level_buffer (Fnum 50) initial_firmware))
    = Some (normalize (Fnum 50)).
Proof.
  split; [apply initial_window_ok|].
  rewrite (readout_slides (Fnum 50) initial_firmware initial_window_ok).
  apply last_snoc.
Defined.

(** X7.  From any state of the window, once 60 or more values have been
    recorded the readout is the last 60 of them, each divided by 100,
    whatever the buffer held before; and the cursor has advanced by the number
    of values modulo 60. *)
Theorem window_forgets (vs : list cfloat) (fw : firmware) :
  window_ok fw ->
  60 <= length vs ->
  read_normalized (record_all vs fw) =
    map normalize (drop (length vs - 60) vs) /\
  buffer_index (record_all vs fw) =
    ((buffer_index fw + Z.of_nat (length vs)) mod 60)%Z.
Proof.
  intros Hok Hlen. split; [|by apply record_all_buffer_index].
  rewrite read_normalized_window by (by apply record_all_window_ok).
  rewrite window_record_all by done.
  assert (Hw : length (window fw) = 60).
  { unfold window. rewrite length_rotate. apply Hok. }
  rewrite drop_app_ge by lia. by rewrite Hw.
Qed.

Lemma window_forgets_witness :
  window_ok (record_all [Fnum 7; Fnum 8] initial_firmware) /\
  60 <= length sixty_one_levels /\
  read_normalized
    (record_all sixty_one_levels
       (record_all [Fnum 7; Fnum 8] initial_firmware)) =
    map normalize (drop 1 sixty_one_levels).
Proof.
  assert (Hok : window_ok (record_all [Fnum 7; Fnum 8] initial_firmware))
    by apply record_all_window_ok, initial_window_ok.
  split; [exact Hok|]. split; [vm_compute; lia|].
  apply (window_forgets sixty_one_levels _ Hok). vm_compute; lia.
Defined.

(** X8.  The temporal callback ignores [offset]: asked for [len <= 60] values
    it always hands over the first [len] values of the readout, so a read in
    two halves delivers the older half twice. *)
Theorem sensor_get_data_ignores_offset (fw : firmware) (offset len : nat) :
  len <= 60 ->
  sensor_get_data fw offset len = (take len (read_normalized fw), 0%Z).
Proof.
  intros Hlen. unfold read_normalized, sensor_get_data. cbn [fst].
  f_equal. change map with (@fmap list _).
  rewrite <- fmap_take, take_seq. by rewrite Nat.min_l.
Qed.

Lemma sensor_get_data_ignores_offset_witness :
  30 <= 60 /\
  sensor_get_data (record_all sixty_one_levels initial_firmware) 30 30 =
  sensor_get_data (record_all sixty_one_levels initial_firmware) 0 30.
Proof.
  split; [lia|].
  rewrite !sensor_get_data_ignores_offset by lia. reflexivity.
Defined.

(** ** Extraction of the model outputs *)

Lemma sensor_step_range (acc : Z * cfloat) (c : ei_classification) :
  (0 <= fst acc <= 2)%Z -> (0 <= fst (sensor_step acc c) <= 2)%Z.
Proof.
  destruct acc as [cl m]. unfold sensor_step. cbn [fst]. intros Hcl.
  destruct (fgt (value c) m); [|done]. cbn [fst].
  repeat (destruct (String.eqb _ _); [lia|]). done.
Qed.

Lemma sensor_fold_range (res : ei_impulse_result_t) (acc : Z * cfloat) :
  (0 <= fst acc <= 2)%Z -> (0 <= fst (fold_left sensor_step res acc) <= 2)%Z.
Proof.
  revert acc. induction res as [|c res IH]; intros acc Hacc; [done|].
  apply IH. by apply sensor_step_range.
Qed.

Lemma sensor_fold_no_greater (res : ei_impulse_result_t) (acc : Z * cfloat) :
  Forall (fun c => fgt (value c) (snd acc) = false) res ->
  fold_left sensor_step res acc = acc.
Proof.
  induction 1 as [|c res Hc _ IH]; [done|].
  cbn [fold_left]. replace (sensor_step acc c) with acc; [done|].
  destruct acc as [cl m]. unfold sensor_step. cbn [snd] in Hc. by rewrite Hc.
Qed.

(** X9.  The water-level class is always 0, 1 or 2, whatever the classifier
    returns (error code, unknown labels, NaN scores); and it is 0 when no
    score is above 0.0. *)
Theorem water_level_class_range (run_classifier : classifier) (fw : firmware) :
  (0 <= run_sensor_inference run_classifier fw <= 2)%Z /\
  (forall res : ei_impulse_result_t,
     Forall (fun c => fgt (value c) (Fnum 0.0) = false) res ->
     class_of_result res = 0%Z).
Proof.
  split.
  - unfold run_sensor_inference.
    destruct (run_classifier (sensor_signal fw)) as [err res].
    destruct (negb _); [lia|].
    apply sensor_fold_range. cbn [fst]. lia.
  - intros res Hres. unfold class_of_result.
    by rewrite sensor_fold_no_greater.
Qed.

(** X10.  Arg-max of [run_sensor_inference]: when an entry with one of the
    three known labels has a score above 0.0, strictly above every earlier
    score and not below any later one (NaN scores never count), the class is
    that of its label. *)
Theorem class_of_result_argmax
    (pre post : ei_impulse_result_t) (c : ei_classification) (k : Z) :
  (label c, k) ∈
    [("normal"%string, 0%Z); ("elevated"%string, 1%Z);
     ("critical"%string, 2%Z)] ->
  fgt (value c) (Fnum 0.0) = true ->
  Forall (fun d => fge (value d) (value c) = false) pre ->
  Forall (fun d => fgt (value d) (value c) = false) post ->
  class_of_result (pre ++ c :: post) = k.
Proof.
  intros Hlabel Hpos Hpre Hpost. unfold class_of_result.
  rewrite fold_left_app. cbn [fold_left].
  assert (Hinv : forall acc : Z * cfloat,
            fgt (value c) (snd acc) = true ->
            fgt (value c) (snd (fold_left sensor_step pre acc)) = true).
  { clear Hpost Hlabel. induction Hpre as [|d pre Hd _ IH]; intros acc Hacc; [done|].
    cbn [fold_left]. apply IH.
    destruct acc as [cl m]. unfold sensor_step. cbn [snd] in *.
    destruct (fgt (value d) m) eqn:Hdm; [|done]. cbn [snd].
    destruct (value c) as [x|], (value d) as [y|], m as [z|];
      try discriminate.
    apply fgt_num. apply not_true_iff_false in Hd.
    unfold fge in Hd. rewrite fle_num in Hd. lra. }
  specialize (Hinv (0%Z, Fnum 0.0) Hpos).
  destruct (fold_left sensor_step pre (0%Z, Fnum 0.0)) as [cl m].
  cbn [snd] in Hinv.
  rewrite sensor_fold_no_greater.
  - unfold sensor_step. rewrite Hinv. cbn [fst].
    rewrite !elem_of_cons, elem_of_nil in Hlabel.
    destruct Hlabel as [H|[H|[H|[]]]]; injection H as -> ->; reflexivity.
  - unfold sensor_step. rewrite Hinv. done.
Qed.

Lemma class_of_result_argmax_witness :
  class_of_result
    [ mk_class "normal" (Fnum 0.1); mk_class "noise" Fnan;
      mk_class "critical" (Fnum 0.6); mk_class "elevated" (Fnum 0.3) ] = 2%Z.
Proof.
  apply (class_of_result_argmax
           [ mk_class "normal" (Fnum 0.1); mk_class "noise" Fnan ]
           [ mk_class "elevated" (Fnum 0.3) ]
           (mk_class "critical" (Fnum 0.6)) 2).
  - rewrite !elem_of_cons. right. right. by left.
  - reflexivity.
  - repeat constructor.
  - repeat constructor.
Defined.

Lemma score_of_label_absent (lbl : string) (res : ei_impulse_result_t) :
  Forall (fun c => label c <> lbl) res -> score_of_label lbl res = Fnum 0.0.
Proof.
  induction 1 as [|c res Hc _ IH]; [done|].
  cbn [score_of_label]. apply String.eqb_neq in Hc. by rewrite Hc.
Qed.

Lemma score_of_label_first (lbl : string)
    (pre post : ei_impulse_result_t) (c : ei_classification) :
  Forall (fun d => label d <> lbl) pre -> label c = lbl ->
  score_of_label lbl (pre ++ c :: post) = value c.
Proof.
  intros Hpre Hc. induction Hpre as [|d pre Hd _ IH]; cbn [app score_of_label].
  - apply String.eqb_eq in Hc. by rewrite Hc.
  - apply String.eqb_neq in Hd. by rewrite Hd.
Qed.

(** X11.  The visual and the environmental score are 0.0 both when the
    classifier call fails and when it succeeds without the wanted label
    ("blockage", "high_risk"); when the label occurs, the first entry that
    carries it gives the score. *)
Theorem score_extraction (N : nat) (run_classifier : classifier)
    (frame : list Z) (fw : firmware) :
  (forall err res, run_classifier (visual_signal N) = (err, res) ->
     (err <> EI_IMPULSE_OK \/ Forall (fun c => label c <> "blockage"%string) res ->
      run_visual_inference N run_classifier frame = Fnum 0.0) /\
     (forall pre c post,
        err = EI_IMPULSE_OK -> res = pre ++ c :: post ->
        Forall (fun d => label d <> "blockage"%string) pre ->
        label c = "blockage"%string ->
        run_visual_inference N run_classifier frame = value c)) /\
  (forall err res, run_classifier (env_signal fw) = (err, res) ->
     (err <> EI_IMPULSE_OK \/ Forall (fun c => label c <> "high_risk"%string) res ->
      run_environmental_inference run_classifier fw = Fnum 0.0) /\
     (forall pre c post,
        err = EI_IMPULSE_OK -> res = pre ++ c :: post ->
        Forall (fun d => label d <> "high_risk"%string) pre ->
        label c = "high_risk"%string ->
        run_environmental_inference run_classifier fw = value c)).
Proof.
  split; intros err res Hrun;
    unfold run_visual_inference, run_environmental_inference;
    rewrite Hrun; unfold EI_IMPULSE_OK; (split;
    [ intros [Herr|Habs];
      [ apply Z.eqb_neq in Herr; by rewrite Herr
      | destruct (negb _); [done | by apply score_of_label_absent] ]
    | intros pre c post -> -> Hpre Hc; cbn [Z.eqb negb];
      by apply score_of_label_first ]).
Qed.

(** ** Fusion and decision, continued *)

Lemma fgt_high_medium (score : cfloat) :
  fgt score ALERT_THRESHOLD_HIGH = true ->
  fgt score ALERT_THRESHOLD_MEDIUM = true.
Proof.
  destruct score as [x|]; [|discriminate].
  unfold ALERT_THRESHOLD_HIGH, ALERT_THRESHOLD_MEDIUM.
  rewrite !fgt_num. lra.
Qed.

(** X12.  With both scores in [0, 1] and the class in 0..2 the fused
    alert_score is a number in [0, 1]. *)
Theorem fuse_in_unit_interval (b f : Q) (w : Z) :
  (0 <= b <= 1)%Q -> (0 <= f <= 1)%Q -> (0 <= w <= 2)%Z ->
  in_range (Fnum 0) (Fnum 1) (fuse (Fnum b) w (Fnum f)) = true.
Proof.
  intros [Hb0 Hb1] [Hf0 Hf1] [Hw0 Hw2]. unfold fuse.
  destruct (fuse_double_mono 0 b 0 f 0 w Hb0 Hw0 Hf0) as (lo & s & Hlo & Hs & Hle).
  destruct (fuse_double_mono b 1 f 1 w 2 Hb1 Hw2 Hf1) as (s' & hi & Hs' & Hhi & Hge).
  rewrite Hs in Hs'. injection Hs' as <-.
  assert (H0 : in_range (Fnum 0) (Fnum 1)
                 (to_float (fuse_double (Fnum 0) 0 (Fnum 0))) = true)
    by (vm_compute; reflexivity).
  assert (H1 : in_range (Fnum 0) (Fnum 1)
                 (to_float (fuse_double (Fnum 1) 2 (Fnum 1))) = true)
    by (vm_compute; reflexivity).
  rewrite Hlo in H0. rewrite Hhi in H1. rewrite Hs.
  cbn [to_float] in *.
  apply in_range_num in H0, H1. apply in_range_num.
  pose proof (round_float_mono lo s Hle).
  pose proof (round_float_mono s hi Hge). lra.
Qed.

Lemma fuse_in_unit_interval_witness :
  in_range (Fnum 0) (Fnum 1) (fuse (Fnum 1) 2 (Fnum 1)) = true.
Proof. apply fuse_in_unit_interval; [lra | lra | lia]. Defined.

(** X13.  The level is always one of HIGH, MEDIUM and LOW: HIGH exactly when
    alert_score > 0.7 and the class is 2; LOW exactly when alert_score is not
    above 0.5, the class is not 1 and flood_risk is not above 0.7; MEDIUM in
    every other case. *)
Theorem alert_level_cases (score flood : cfloat) (wl_class : Z) :
  let level := fst (alert_decision score wl_class flood) in
  (level = "HIGH"%string <->
   fgt score ALERT_THRESHOLD_HIGH = true /\ wl_class = 2%Z) /\
  (level = "LOW"%string <->
   fgt score ALERT_THRESHOLD_MEDIUM = false /\ wl_class <> 1%Z /\
   fgt flood (Fnum 0.7) = false) /\
  (level = "HIGH"%string \/ level = "MEDIUM"%string \/ level = "LOW"%string).
Proof.
  cbn zeta. unfold alert_decision.
  assert (Hhm := fgt_high_medium score).
  destruct (fgt score ALERT_THRESHOLD_HIGH),
    (fgt score ALERT_THRESHOLD_MEDIUM),
    (Z.eqb_spec wl_class 2), (Z.eqb_spec wl_class 1),
    (fgt flood (Fnum 0.7));
    cbn [andb orb fst];
    try (specialize (Hhm eq_refl); discriminate);
    (split; [|split]);
    try (split; [intros ?|intros (? & ? & ?)]; done || lia || discriminate);
    try (split; [intros ?|intros (? & ?)]; done || lia || discriminate);
    auto.
Qed.

(** X14.  A NaN blockage score or flood risk makes the fused alert_score NaN,
    and the alert is then never HIGH, even at class 2: it is MEDIUM when the
    class is 1 or flood_risk > 0.7, LOW otherwise. *)
Theorem nan_score_never_high (fw : firmware) :
  let r := inference_results fw in
  let r' := inference_results (fuse_and_alert fw) in
  isnan (blockage_score r) || isnan (flood_risk r) = true ->
  alert_score r' = Fnan /\
  alert_level r' <> "HIGH"%string /\
  (alert_level r' = "MEDIUM"%string <->
   water_level_class r = 1%Z \/ fgt (flood_risk r) (Fnum 0.7) = true).
Proof.
  intros r r' Hnan. subst r'. rewrite fuse_and_alert_results. fold r.
  cbn [alert_score alert_level].
  assert (Hfuse : fuse (blockage_score r) (water_level_class r) (flood_risk r)
                  = Fnan).
  { unfold fuse. destruct (blockage_score r), (flood_risk r); try discriminate;
      reflexivity. }
  rewrite Hfuse. split; [done|].
  unfold alert_decision.
  change (fgt Fnan ALERT_THRESHOLD_HIGH) with false.
  change (fgt Fnan ALERT_THRESHOLD_MEDIUM) with false.
  destruct (Z.eqb_spec (water_level_class r) 1) as [Hw|Hw];
    cbn [andb orb fst].
  - split; [discriminate|]. split; [by left | done].
  - destruct (fgt (flood_risk r) (Fnum 0.7)) eqn:Hf; cbn [fst].
    + split; [discriminate|]. split; [by right | done].
    + split; [discriminate|]. split; [discriminate|].
      intros [?|?]; [done | discriminate].
Qed.

Lemma nan_score_never_high_witness :
  let fw := with_results (mk_results Fnan 2 (Fnum 1) (Fnum 0) "LOW" "")
              initial_firmware in
  isnan (blockage_score (inference_results fw))
    || isnan (flood_risk (inference_results fw)) = true /\
  alert_level (inference_results (fuse_and_alert fw)) <> "HIGH"%string.
Proof.
  intros fw. split; [reflexivity|].
  apply (nan_score_never_high fw). reflexivity.
Defined.

(** X15.  The alert is not monotone in the water-level class: with
    non-negative scores such that 0.40 b + 0.30 f <= 0.2 and f <= 0.7 (for
    instance no blockage and no flood risk) class 2, critical, ends in LOW
    while class 1, elevated, ends in MEDIUM. *)
Theorem critical_class_alone_is_low (b f : Q) (fw : firmware) :
  (0 <= b)%Q -> (0 <= f)%Q ->
  (0.40 * b + 0.30 * f <= 0.2)%Q -> (f <= 0.7)%Q ->
  let alert (w : Z) :=
    alert_level
      (inference_results
         (fuse_and_alert
            (with_results (mk_results (Fnum b) w (Fnum f) (Fnum 0) "LOW" "")
               fw))) in
  alert 2%Z = "LOW"%string /\ alert 1%Z = "MEDIUM"%string.
Proof.
  intros Hb Hf Hsum Hfl alert. subst alert. cbn beta.
  rewrite !fuse_and_alert_results.
  cbn [alert_level inference_results with_results blockage_score
    water_level_class flood_risk].
  unfold alert_decision.
  split.
  - destruct (fuse_double_error b f 2) as (s & Hs & Herr);
      [lra | lra | lia |].
    unfold fuse. rewrite Hs. cbn [to_float].
    apply Qabs_Qle_condition in Herr. change (inject_Z 2) with 2%Q in Herr.
    assert (Hs5 : (s <= (1 # 2) + (1 # 1125899906842624))%Q)
      by (q_norm; lra).
    apply round_float_mono in Hs5.
    assert (Hhalf : (round_float ((1 # 2) + (1 # 1125899906842624)) <= 1 # 2)%Q)
      by (vm_compute; discriminate).
    set (score := Fnum (round_float s)).
    assert (Hm : fgt score ALERT_THRESHOLD_MEDIUM = false).
    { apply not_true_iff_false. unfold score, ALERT_THRESHOLD_MEDIUM.
      rewrite fgt_num. lra. }
    assert (Hh : fgt score ALERT_THRESHOLD_HIGH = false).
    { apply not_true_iff_false. intros Hh.
      apply fgt_high_medium in Hh. congruence. }
    assert (Hf7 : fgt (Fnum f) (Fnum 0.7) = false).
    { apply not_true_iff_false. rewrite fgt_num. lra. }
    by rewrite Hm, Hh, Hf7.
  - change (1 =? 2)%Z with false. change (1 =? 1)%Z with true.
    by rewrite andb_false_r, orb_true_r.
Qed.

Lemma critical_class_alone_is_low_witness :
  alert_level
    (inference_results
       (fuse_and_alert
          (with_results (mk_results (Fnum 0) 2 (Fnum 0) (Fnum 0) "LOW" "")
             initial_firmware))) = "LOW"%string.
Proof.
  apply (critical_class_alone_is_low 0 0 initial_firmware); lra.
Defined.

(** Without the sign condition the rounding of the two products can leave
    a large difference: blockage 3 * 2^97 and flood risk -4 * 2^97 weigh
    0.40 b + 0.30 f = 0 exactly, yet class 2 ends in HIGH. *)
Example cancelling_scores_end_high :
  let b := (3 * inject_Z (2 ^ 97))%Q in
  let f := (- (4 * inject_Z (2 ^ 97)))%Q in
  (0.40 * b + 0.30 * f == 0)%Q /\
  round_float b = b /\ round_float f = f /\
  alert_level
    (inference_results
       (fuse_and_alert
          (with_results (mk_results (Fnum b) 2 (Fnum f) (Fnum 0) "LOW" "")
             initial_firmware))) = "HIGH"%string.
Proof. vm_compute. repeat split. Qed.

(** ** Scheduling *)

(** X17.  The elapsed time is right across the rollover of [millis()]: for a
    last-fired time and a true delay below 2^32, subtracting on 32 bits gives
    the delay back, so an activity is due exactly when the delay has reached
    its period. *)
Theorem elapsed_rollover (last d : Z) :
  (0 <= last < 2 ^ 32)%Z -> (0 <= d < 2 ^ 32)%Z ->
  elapsed ((last + d) mod 2 ^ 32) last = d /\
  (forall period : Z,
     (period <=? elapsed ((last + d) mod 2 ^ 32) last)%Z = (period <=? d)%Z).
Proof.
  intros Hlast Hd.
  assert (H : elapsed ((last + d) mod 2 ^ 32) last = d).
  { unfold elapsed. rewrite Zminus_mod_idemp_l.
    replace (last + d - last)%Z with d by lia. by apply Z.mod_small. }
  split; [exact H|]. intros period. by rewrite H.
Qed.

Lemma elapsed_rollover_witness :
  elapsed 900 (2 ^ 32 - 100) = 1000%Z.
Proof.
  apply (elapsed_rollover (2 ^ 32 - 100) 1000); lia.
Defined.

Section LoopProperties.

Variable EI_CLASSIFIER_INPUT_SIZE : nat.
Variable run_classifier : classifier.

Local Abbreviation loop' := (loop EI_CLASSIFIER_INPUT_SIZE run_classifier).
Local Abbreviation cycle' :=
  (inference_cycle EI_CLASSIFIER_INPUT_SIZE run_classifier).

Lemma loop_unfold (inp : loop_inputs) (fw : firmware) :
  loop' inp fw =
    if (CAMERA_INTERVAL <=?
          elapsed (in_millis inp) (last_camera_time (sampling_phase inp fw)))%Z
    then cycle' inp (sampling_phase inp fw)
    else (sampling_phase inp fw, None).
Proof. reflexivity. Qed.

(** The sampling blocks leave the inference results, the camera timer and,
    each, the other block's timer alone. *)
Lemma sampling_phase_frame (inp : loop_inputs) (fw : firmware) :
  let fw' := sampling_phase inp fw in
  inference_results fw' = inference_results fw /\
  last_camera_time fw' = last_camera_time fw /\
  last_env_time fw' =
    (if (ENV_INTERVAL <=? elapsed (in_millis inp) (last_env_time fw))%Z
     then in_millis inp else last_env_time fw) /\
  last_sensor_time fw' =
    (if (SENSOR_INTERVAL <=? elapsed (in_millis inp) (last_sensor_time fw))%Z
     then in_millis inp else last_sensor_time fw).
Proof.
  cbn zeta. unfold sampling_phase, read_dht22.
  destruct (ENV_INTERVAL <=? _)%Z;
    [destruct (isnan _ || isnan _)|];
    cbn [last_sensor_time with_last_env_time read_rain_sensor read_bmp280
         with_env];
    destruct (SENSOR_INTERVAL <=? _)%Z; done.
Qed.

(** The inference block leaves the samples and the sampling timers alone. *)
Lemma cycle_frame (inp : loop_inputs) (fw : firmware) :
  let fw' := fst (cycle' inp fw) in
  water_level_buffer fw' = water_level_buffer fw /\
  buffer_index fw' = buffer_index fw /\
  current_env_data fw' = current_env_data fw /\
  last_env_time fw' = last_env_time fw /\
  last_sensor_time fw' = last_sensor_time fw /\
  last_camera_time fw' = in_millis inp.
Proof.
  cbn zeta. unfold inference_cycle, fuse_and_alert. cbn [fst].
  by destruct (alert_decision _ _ _).
Qed.

(** When no activity is due, [loop] does nothing. *)
Lemma loop_quiet (inp : loop_inputs) (fw : firmware) :
  (ENV_INTERVAL <=? elapsed (in_millis inp) (last_env_time fw))%Z = false ->
  (SENSOR_INTERVAL <=? elapsed (in_millis inp) (last_sensor_time fw))%Z = false ->
  (CAMERA_INTERVAL <=? elapsed (in_millis inp) (last_camera_time fw))%Z = false ->
  loop' inp fw = (fw, None).
Proof.
  intros He Hs Hc. unfold loop. rewrite He, Hs. cbv zeta. by rewrite Hc.
Qed.

Lemma elapsed_same (t : Z) : elapsed t t = 0%Z.
Proof. unfold elapsed. by rewrite Z.sub_diag. Qed.

(** The three timers after one pass. *)
Lemma loop_timers (inp : loop_inputs) (fw : firmware) :
  let fw' := fst (loop' inp fw) in
  last_env_time fw' =
    (if (ENV_INTERVAL <=? elapsed (in_millis inp) (last_env_time fw))%Z
     then in_millis inp else last_env_time fw) /\
  last_sensor_time fw' =
    (if (SENSOR_INTERVAL <=? elapsed (in_millis inp) (last_sensor_time fw))%Z
     then in_millis inp else last_sensor_time fw) /\
  last_camera_time fw' =
    (if (CAMERA_INTERVAL <=? elapsed (in_millis inp) (last_camera_time fw))%Z
     then in_millis inp else last_camera_time fw).
Proof.
  cbn zeta. rewrite loop_unfold.
  destruct (sampling_phase_frame inp fw) as (_ & Hc & He & Hs).
  rewrite Hc.
  destruct (CAMERA_INTERVAL <=? _)%Z.
  - destruct (cycle_frame inp (sampling_phase inp fw))
      as (_ & _ & _ & He' & Hs' & Hc').
    by rewrite He', Hs', Hc', He, Hs.
  - cbn [fst]. by rewrite He, Hs, Hc.
Qed.

(** X16.  A second pass of [loop] at the same [millis()] value changes
    nothing and pushes nothing, whatever the sensors and the link deliver:
    each activity fires at most once per clock value. *)
Theorem loop_idempotent_at_same_time (inp inp2 : loop_inputs) (fw : firmware) :
  in_millis inp2 = in_millis inp ->
  loop' inp2 (fst (loop' inp fw)) = (fst (loop' inp fw), None).
Proof.
  intros Hsame.
  destruct (loop_timers inp fw) as (He & Hs & Hc).
  apply loop_quiet; rewrite Hsame.
  - rewrite He. destruct (ENV_INTERVAL <=? _)%Z eqn:E; [|done].
    by rewrite elapsed_same.
  - rewrite Hs. destruct (SENSOR_INTERVAL <=? _)%Z eqn:E; [|done].
    by rewrite elapsed_same.
  - rewrite Hc. destruct (CAMERA_INTERVAL <=? _)%Z eqn:E; [|done].
    by rewrite elapsed_same.
Qed.

(** X18.  Each block of [loop] is the only writer of its data: unless the
    environmental block is due, temperature, humidity, pressure and rainfall
    keep their values; unless the ranging block is due, the buffer, its
    cursor and the water level do; unless the inference block is due, the
    inference results do and nothing is pushed. *)
Theorem loop_touches_only_what_is_due (inp : loop_inputs) (fw : firmware) :
  let fw' := fst (loop' inp fw) in
  let e := current_env_data fw in
  let e' := current_env_data fw' in
  ((ENV_INTERVAL <=? elapsed (in_millis inp) (last_env_time fw))%Z = false ->
   temperature e' = temperature e /\ humidity e' = humidity e /\
   pressure e' = pressure e /\ rainfall e' = rainfall e) /\
  ((SENSOR_INTERVAL <=? elapsed (in_millis inp) (last_sensor_time fw))%Z = false ->
   water_level_buffer fw' = water_level_buffer fw /\
   buffer_index fw' = buffer_index fw /\
   water_level e' = water_level e) /\
  ((CAMERA_INTERVAL <=? elapsed (in_millis inp) (last_camera_time fw))%Z = false ->
   inference_results fw' = inference_results fw /\
   snd (loop' inp fw) = None).
Proof.
  cbn zeta.
  assert (Hsame :
    water_level_buffer (fst (loop' inp fw)) =
      water_level_buffer (sampling_phase inp fw) /\
    buffer_index (fst (loop' inp fw)) = buffer_index (sampling_phase inp fw) /\
    current_env_data (fst (loop' inp fw)) =
      current_env_data (sampling_phase inp fw)).
  { rewrite loop_unfold. destruct (CAMERA_INTERVAL <=? _)%Z; [|done].
    destruct (cycle_frame inp (sampling_phase inp fw)) as (? & ? & ? & _).
    done. }
  destruct Hsame as (Hbuf & Hidx & Henv). rewrite Hbuf, Hidx, Henv.
  split; [|split].
  - intros He. unfold sampling_phase. rewrite He.
    by destruct (SENSOR_INTERVAL <=? _)%Z.
  - intros Hs. unfold sampling_phase, read_dht22.
    destruct (ENV_INTERVAL <=? _)%Z;
      [destruct (isnan _ || isnan _)|];
      cbn [last_sensor_time with_last_env_time read_rain_sensor read_bmp280
           with_env];
      by rewrite Hs.
  - intros Hc. rewrite loop_unfold.
    destruct (sampling_phase_frame inp fw) as (Hr & Hct & _).
    rewrite Hct, Hc. cbn [fst snd]. by rewrite Hr.
Qed.

End LoopProperties.

Lemma loop_idempotent_at_same_time_witness :
  in_millis sample_inputs = in_millis sample_inputs /\
  loop 96 sample_classifier sample_inputs
    (fst (loop 96 sample_classifier sample_inputs initial_firmware)) =
  (fst (loop 96 sample_classifier sample_inputs initial_firmware), None).
Proof.
  split; [reflexivity|].
  by apply (loop_idempotent_at_same_time 96 sample_classifier).
Defined.

(** ** Invariants of the running firmware *)

Lemma normalize_unit (x : cfloat) :
  in_range (of_int 0) (of_int 100) x = true ->
  in_range (Fnum 0) (Fnum 1) (normalize x) = true.
Proof.
  destruct x as [q|]; [|discriminate]. intros H.
  apply in_range_num in H. unfold inject_Z in H.
  change (normalize (Fnum q)) with (Fnum (q / 100.0)).
  apply in_range_num. q_arith.
Qed.

Lemma features_in_unit (e : env_data) :
  in_range (of_int 15) (of_int 40) (temperature e) = true ->
  in_range (of_int 0) (of_int 100) (humidity e) = true ->
  in_range (of_int 990) (of_int 1040) (pressure e) = true ->
  in_range (of_int 0) (of_int 100) (rainfall e) = true ->
  in_range (of_int 0) (of_int 100) (water_level e) = true ->
  Forall (fun x => in_range (Fnum 0) (Fnum 1) x = true) (env_features e).
Proof.
  destruct e as [[t|] [h|] [p|] [r|] [w|]];
    cbn [temperature humidity pressure rainfall water_level];
    try discriminate.
  intros Ht Hh Hp Hr Hw.
  apply in_range_num in Ht, Hh, Hp, Hr, Hw. unfold inject_Z in *.
  unfold env_features.
  cbn [temperature humidity pressure rainfall water_level].
  repeat apply Forall_cons_2; [..|apply Forall_nil_2];
    apply in_range_num; unfold inject_Z; q_arith.
Qed.

Lemma map_range_rain (v : Z) :
  (0 <= v <= 4095)%Z -> (0 <= map_range v 0 4095 0 100 <= 100)%Z.
Proof.
  intros Hv. unfold map_range. change (4095 - 0 =? 0)%Z with false. cbv iota zeta.
  rewrite Z.add_0_r, Z.sub_0_r.
  change (100 - 0)%Z with 100%Z. change (4095 - 0)%Z with 4095%Z.
  rewrite Z.quot_div_nonneg by lia.
  split; [apply Z.div_pos; lia | apply Z.div_le_upper_bound; lia].
Qed.

Lemma levels_ok_same (fw fw' : firmware) :
  water_level_buffer fw' = water_level_buffer fw ->
  buffer_index fw' = buffer_index fw ->
  water_level (current_env_data fw') = water_level (current_env_data fw) ->
  levels_ok fw -> levels_ok fw'.
Proof.
  unfold levels_ok, window_ok. by intros -> -> ->.
Qed.

Lemma levels_ok_update (duration : Z) (fw : firmware) :
  levels_ok fw ->
  levels_ok (update_water_level_buffer (read_ultrasonic duration) fw).
Proof.
  intros (Hok & Hbuf & _).
  pose proof (read_ultrasonic_bounded duration) as Hv.
  split; [by apply update_window_ok|]. split.
  - cbn [update_water_level_buffer water_level_buffer]. by apply Forall_insert.
  - cbn [update_water_level_buffer current_env_data water_level].
    destruct (read_ultrasonic duration) as [x|]; [|discriminate].
    apply constrain_in_range. unfold inject_Z. lra.
Qed.

Section RunProperties.

Variable EI_CLASSIFIER_INPUT_SIZE : nat.
Variable run_classifier : classifier.

Local Abbreviation loop'' := (loop EI_CLASSIFIER_INPUT_SIZE run_classifier).
Local Abbreviation run'' := (run_loop EI_CLASSIFIER_INPUT_SIZE run_classifier).

(** The samples [loop] leaves are those of its sampling blocks. *)
Lemma loop_samples (inp : loop_inputs) (fw : firmware) :
  water_level_buffer (fst (loop'' inp fw)) =
    water_level_buffer (sampling_phase inp fw) /\
  buffer_index (fst (loop'' inp fw)) = buffer_index (sampling_phase inp fw) /\
  current_env_data (fst (loop'' inp fw)) =
    current_env_data (sampling_phase inp fw).
Proof.
  rewrite loop_unfold. destruct (CAMERA_INTERVAL <=? _)%Z; [|done].
  unfold inference_cycle, fuse_and_alert. cbn [fst].
  by destruct (alert_decision _ _ _).
Qed.

(** What the environmental block leaves for the ranging block. *)
Lemma env_block_keeps_levels (inp : loop_inputs) (fw : firmware) :
  let fw1 :=
    with_last_env_time (in_millis inp)
      (read_rain_sensor (in_rain_value inp)
         (read_bmp280 (in_bmp_pressure inp)
            (read_dht22 (in_dht_temperature inp) (in_dht_humidity inp) fw))) in
  water_level_buffer fw1 = water_level_buffer fw /\
  buffer_index fw1 = buffer_index fw /\
  water_level (current_env_data fw1) = water_level (current_env_data fw) /\
  last_sensor_time fw1 = last_sensor_time fw.
Proof.
  cbn zeta. unfold read_dht22. by destruct (isnan _ || isnan _).
Qed.

Lemma sampling_phase_levels_ok (inp : loop_inputs) (fw : firmware) :
  levels_ok fw -> levels_ok (sampling_phase inp fw).
Proof.
  intros Hok. unfold sampling_phase.
  set (fw1 := if (ENV_INTERVAL <=? _)%Z then _ else fw).
  assert (Hok1 : levels_ok fw1).
  { subst fw1. destruct (ENV_INTERVAL <=? _)%Z; [|done].
    destruct (env_block_keeps_levels inp fw) as (? & ? & ? & _).
    by eapply levels_ok_same. }
  clearbody fw1. cbv zeta.
  destruct (SENSOR_INTERVAL <=? _)%Z; [|done].
  by apply (levels_ok_update (in_echo_duration inp)) in Hok1.
Qed.

Lemma loop_levels_ok (inp : loop_inputs) (fw : firmware) :
  levels_ok fw -> levels_ok (fst (loop'' inp fw)).
Proof.
  intros Hok. destruct (loop_samples inp fw) as (Hb & Hi & He).
  apply (levels_ok_same (sampling_phase inp fw)); [done | done | |].
  - by rewrite He.
  - by apply sampling_phase_levels_ok.
Qed.

(** X20.  Whatever the sensors, the link and the classifier do, after any
    number of [loop] passes from the initial state the cursor is in 0..59,
    every stored water level is a number in [0, 100], and every temporal
    feature of the readout is in [0, 1]. *)
Theorem temporal_features_in_unit (inps : list loop_inputs) :
  let fw := run'' inps initial_firmware in
  levels_ok fw /\
  Forall (fun x => in_range (Fnum 0) (Fnum 1) x = true) (read_normalized fw).
Proof.
  cbn zeta.
  assert (Hinit : levels_ok initial_firmware).
  { split; [apply initial_window_ok|]. split; [|reflexivity].
    by apply Forall_replicate. }
  assert (Hok : levels_ok (run'' inps initial_firmware)).
  { unfold run_loop. generalize initial_firmware Hinit.
    induction inps as [|inp inps IH]; intros fw Hfw; [done|].
    cbn [fold_left]. apply IH. by apply loop_levels_ok. }
  split; [exact Hok|].
  destruct Hok as (Hwin & Hbuf & _).
  rewrite read_normalized_window by done.
  change map with (@fmap list _). apply Forall_fmap.
  apply Forall_forall. intros x Hx. cbn [compose].
  apply normalize_unit.
  unfold window in Hx. apply elem_of_rotate in Hx.
  by apply (proj1 (Forall_forall _ _) Hbuf).
Qed.

(** X19.  When the ranging block and the inference block are due in the same
    pass, the temporal model is run on a readout whose newest entry is the
    level measured in that pass. *)
Theorem inference_sees_fresh_sample (inp : loop_inputs) (fw : firmware) :
  window_ok fw ->
  (SENSOR_INTERVAL <=? elapsed (in_millis inp) (last_sensor_time fw))%Z = true ->
  (CAMERA_INTERVAL <=? elapsed (in_millis inp) (last_camera_time fw))%Z = true ->
  water_level_class (inference_results (fst (loop'' inp fw))) =
    run_sensor_inference run_classifier (sampling_phase inp fw) /\
  last (read_normalized (sampling_phase inp fw)) =
    Some (normalize (read_ultrasonic (in_echo_duration inp))).
Proof.
  intros Hok Hs Hc. split.
  - rewrite loop_unfold.
    destruct (sampling_phase_frame inp fw) as (_ & Hct & _).
    rewrite Hct, Hc.
    unfold inference_cycle, fuse_and_alert. cbn [fst].
    by destruct (alert_decision _ _ _).
  - unfold sampling_phase.
    set (fw1 := if (ENV_INTERVAL <=? _)%Z then _ else fw).
    assert (H1 : window_ok fw1 /\ last_sensor_time fw1 = last_sensor_time fw).
    { subst fw1. destruct (ENV_INTERVAL <=? _)%Z; [|done].
      destruct (env_block_keeps_levels inp fw) as (Hb & Hi & _ & Ht).
      split; [|done]. unfold window_ok. by rewrite Hb, Hi. }
    destruct H1 as [Hok1 Ht1]. clearbody fw1. cbv zeta.
    rewrite Ht1, Hs.
    change (read_normalized (with_last_sensor_time ?t ?f))
      with (read_normalized f).
    rewrite read_normalized_window by (by apply update_window_ok).
    rewrite window_update by done.
    change map with (@fmap list _). rewrite fmap_app. apply last_snoc.
Qed.

(** X21.  A pass in which the environmental block runs on non-NaN DHT22 and
    BMP280 readings and an ADC value in 0..4095, from a state whose water
    levels are in range, ends with all five environmental features in
    [0, 1]. *)
Theorem env_block_establishes_bounds
    (inp : loop_inputs) (fw : firmware) (t h p : Q) :
  in_dht_temperature inp = Fnum t ->
  in_dht_humidity inp = Fnum h ->
  in_bmp_pressure inp = Fnum p ->
  (0 <= in_rain_value inp <= 4095)%Z ->
  (ENV_INTERVAL <=? elapsed (in_millis inp) (last_env_time fw))%Z = true ->
  levels_ok fw ->
  Forall (fun x => in_range (Fnum 0) (Fnum 1) x = true)
    (env_features (current_env_data (fst (loop'' inp fw)))).
Proof.
  intros Ht Hh Hp Hrain Hdue Hok.
  destruct (loop_samples inp fw) as (_ & _ & ->).
  pose proof (sampling_phase_levels_ok inp fw Hok) as (_ & _ & Hwl).
  assert (Hfields :
    temperature (current_env_data (sampling_phase inp fw)) =
      constrain (Fnum t) (of_int 15) (of_int 40) /\
    humidity (current_env_data (sampling_phase inp fw)) =
      constrain (Fnum h) (of_int 0) (of_int 100) /\
    pressure (current_env_data (sampling_phase inp fw)) =
      constrain (Fnum (p / 100.0)) (of_int 990) (of_int 1040) /\
    rainfall (current_env_data (sampling_phase inp fw)) =
      of_int (map_range (in_rain_value inp) 0 4095 0 100)).
  { unfold sampling_phase. rewrite Hdue, Ht, Hh, Hp.
    by destruct (SENSOR_INTERVAL <=? _)%Z. }
  destruct Hfields as (Ft & Fh & Fp & Fr).
  apply features_in_unit; [rewrite Ft | rewrite Fh | rewrite Fp | rewrite Fr | done].
  - apply constrain_in_range. unfold inject_Z. lra.
  - apply constrain_in_range. unfold inject_Z. lra.
  - apply constrain_in_range. unfold inject_Z. lra.
  - apply in_range_num. rewrite <- !Zle_Qle. by apply map_range_rain.
Qed.

(** X23.  A payload [loop] pushes agrees with what the two queries answer
    from the state that pass leaves: the level and the message of the alert
    query, and the level, blockage score, water level, temperature and
    humidity of the status query; and a payload is pushed only with a level
    other than LOW, WiFi connected and the inference block due. *)
Theorem pushed_payload_matches_queries
    (inp : loop_inputs) (fw : firmware) (p : alert_payload) :
  snd (loop'' inp fw) = Some p ->
  let fw' := fst (loop'' inp fw) in
  (p_alert_level p = a_alert_level (handle_alerts fw') /\
   p_alert_message p = a_alert_message (handle_alerts fw')) /\
  (forall now : Z,
     p_alert_level p = s_alert_level (handle_status now fw') /\
     p_blockage_score p = s_blockage_score (handle_status now fw') /\
     p_water_level p = s_water_level (handle_status now fw') /\
     p_temperature p = s_temperature (handle_status now fw') /\
     p_humidity p = s_humidity (handle_status now fw')) /\
  (p_water_level_class p = water_level_class (inference_results fw') /\
   p_flood_risk p = flood_risk (inference_results fw') /\
   p_timestamp p = in_send_millis inp) /\
  p_alert_level p <> "LOW"%string /\
  in_wifi_connected inp = true /\
  (CAMERA_INTERVAL <=? elapsed (in_millis inp) (last_camera_time fw))%Z = true.
Proof.
  cbn zeta. rewrite loop_unfold.
  destruct (sampling_phase_frame inp fw) as (_ & Hct & _). rewrite Hct.
  destruct (CAMERA_INTERVAL <=? _)%Z; [|discriminate].
  unfold inference_cycle. cbn [fst snd].
  set (fw1 := fuse_and_alert _).
  destruct (String.eqb_spec (alert_level (inference_results fw1)) "LOW")
    as [Heq|Hne]; cbn [negb]; [discriminate|].
  unfold send_alert. destruct (in_wifi_connected inp); cbn [negb];
    [|discriminate].
  intros Hp. injection Hp as <-. by repeat split.
Qed.

End RunProperties.

(** A pass on the boot state that measures 34.3 cm: the temporal model is
    run on a readout whose newest entry is 0.343, not the zero that every
    slot held before. *)
Lemma inference_sees_fresh_sample_witness :
  window_ok initial_firmware /\
  water_level_class
    (inference_results
       (fst (loop 96 sample_classifier all_due_inputs initial_firmware))) =
    run_sensor_inference sample_classifier
      (sampling_phase all_due_inputs initial_firmware) /\
  last (read_normalized (sampling_phase all_due_inputs initial_firmware)) =
    Some (normalize (read_ultrasonic 2000)) /\
  feq (normalize (read_ultrasonic 2000)) (Fnum 0.343) /\
  last (read_normalized initial_firmware) = Some (normalize (Fnum 0)) /\
  ~ feq (normalize (read_ultrasonic 2000)) (normalize (Fnum 0)).
Proof.
  split; [apply initial_window_ok|].
  destruct (inference_sees_fresh_sample 96 sample_classifier all_due_inputs
              initial_firmware initial_window_ok eq_refl eq_refl)
    as [Hclass Hlast].
  split; [exact Hclass|]. split; [exact Hlast|].
  split; [reflexivity|]. split; [reflexivity|].
  vm_compute. discriminate.
Defined.

Lemma env_block_establishes_bounds_witness :
  Forall (fun x => in_range (Fnum 0) (Fnum 1) x = true)
    (env_features
       (current_env_data
          (fst (loop 96 sample_classifier all_due_inputs initial_firmware)))).
Proof.
  apply (env_block_establishes_bounds 96 sample_classifier all_due_inputs
           initial_firmware 25 50 101300); try reflexivity.
  - vm_compute. split; discriminate.
  - split; [apply initial_window_ok|]. split; [|reflexivity].
    by apply Forall_replicate.
Defined.

Lemma pushed_payload_matches_queries_witness :
  exists p : alert_payload,
    snd (loop 96 sample_classifier all_due_inputs initial_firmware) = Some p /\
    p_alert_level p <> "LOW"%string /\
    p_alert_level p =
      s_alert_level
        (handle_status 0
           (fst (loop 96 sample_classifier all_due_inputs initial_firmware))) /\
    p_temperature p =
      s_temperature
        (handle_status 0
           (fst (loop 96 sample_classifier all_due_inputs initial_firmware))).
Proof.
  destruct (snd (loop 96 sample_classifier all_due_inputs initial_firmware))
    as [p|] eqn:Hp; [|vm_compute in Hp; discriminate].
  exists p. split; [reflexivity|].
  destruct (pushed_payload_matches_queries 96 sample_classifier
              all_due_inputs initial_firmware p Hp)
    as (_ & Hq & _ & Hlow & _).
  split; [exact Hlow|]. split; apply (Hq 0%Z).
Defined.

(** ** Startup *)

Lemma wifi_wait_spec (status : nat -> bool) (fuel k : nat) :
  k <= 20 -> 21 <= fuel + k ->
  exists j : nat,
    wifi_wait fuel status k (Z.of_nat k) = (S j, Z.of_nat j) /\
    k <= j <= 20 /\
    (forall i : nat, k <= i < j -> status i = false) /\
    (j < 20 -> status j = true).
Proof.
  revert k. induction fuel as [|fuel IH]; intros k Hk Hfuel; [lia|].
  cbn [wifi_wait].
  destruct (negb (status k) && (Z.of_nat k <? 20)%Z) eqn:Hcond.
  - apply andb_true_iff in Hcond as [Hst Hlt].
    apply negb_true_iff in Hst. apply Z.ltb_lt in Hlt.
    replace (Z.of_nat k + 1)%Z with (Z.of_nat (S k)) by lia.
    destruct (IH (S k)) as (j & Hrun & Hj & Hfalse & Htrue); [lia..|].
    exists j. split; [exact Hrun|]. split; [lia|]. split; [|exact Htrue].
    intros i Hi. destruct (decide (i = k)) as [->|Hne]; [done|].
    apply Hfalse. lia.
  - exists k. split; [done|]. split; [lia|]. split; [intros i Hi; lia|].
    intros Hlt. apply andb_false_iff in Hcond as [Hst|Hge].
    + by apply negb_false_iff in Hst.
    + apply Z.ltb_ge in Hge. lia.
Qed.

(** X22.  The WiFi wait of [setup] ends: it stops at the first poll that
    finds the link connected, or after 20 failed polls, so it sleeps at most
    10 s; more fuel than 21 steps changes nothing; the mode is decided by one
    further poll, and [loop] starts from the initial state either way. *)
Theorem setup_wait_is_bounded (status : nat -> bool) :
  exists j : nat,
    setup status = (status (S j), (500 * Z.of_nat j)%Z, initial_firmware) /\
    j <= 20 /\
    (forall i : nat, i < j -> status i = false) /\
    (j < 20 -> status j = true) /\
    (forall extra : nat,
       wifi_wait (21 + extra) status 0 0 = wifi_wait 21 status 0 0).
Proof.
  destruct (wifi_wait_spec status 21 0) as (j & Hrun & Hj & Hfalse & Htrue);
    [lia..|].
  exists j. unfold setup. change (0%Z) with (Z.of_nat 0). rewrite Hrun.
  split; [done|]. split; [lia|]. split; [intros i Hi; apply Hfalse; lia|].
  split; [exact Htrue|].
  intros extra.
  destruct (wifi_wait_spec status (21 + extra) 0)
    as (j' & Hrun' & Hj' & Hfalse' & Htrue'); [lia..|].
  rewrite Hrun'.
  assert (Heq : j' = j); [|by rewrite Heq].
  destruct (Nat.lt_trichotomy j j') as [Hlt|[->|Hgt]]; [|done|].
  - pose proof (Hfalse' j ltac:(lia)) as F.
    rewrite Htrue in F by lia. discriminate.
  - pose proof (Hfalse j' ltac:(lia)) as F.
    rewrite Htrue' in F by lia. discriminate.
Qed.
